(** * Generate-ConfigurationDocumentation.py: extraction and normalisation engine

    A shallow embedding of [tools/Generate-ConfigurationDocumentation.py].
    Python values are a closed variant ([value]); strings are sequences of
    characters whose code points are below 256 (one [ascii] per character);
    a call that can raise returns a [result]. *)

From Stdlib Require Import Ascii String DecimalString.
From stdpp Require Import base decidable option list sorting strings gmap.

(** ** Exceptions and fallible results *)

Inductive exn := TypeError | AttributeError.

Inductive result (A : Type) :=
  | Ok (a : A)
  | Raise (e : exn).
Arguments Ok {A} a.
Arguments Raise {A} e.

#[global] Instance result_ret : MRet result := fun A a => Ok a.
#[global] Instance result_bind : MBind result := fun A B f m =>
  match m with
  | Ok a => f a
  | Raise e => Raise e
  end.

(** ** Python [str] operations used by the tool *)

Module PyStr.

Definition len (s : string) : nat := String.length s.

(** [s[:n]] for [n >= 0]. *)
Fixpoint take (n : nat) (s : string) : string :=
  match n, s with
  | S n', String c s' => String c (take n' s')
  | _, _ => ""
  end.

(** [s[n:]] for [n >= 0]. *)
Fixpoint drop (n : nat) (s : string) : string :=
  match n, s with
  | S n', String _ s' => drop n' s'
  | _, _ => s
  end.

(** [s[:-k]] for [k > 0]: everything but the last [k] characters. *)
Definition drop_last (k : nat) (s : string) : string := take (len s - k) s.

(** [s.startswith(p)]. *)
Definition startswith (s p : string) : bool := String.prefix p s.

(** [s.endswith(suf)]. *)
Definition endswith (s suf : string) : bool :=
  (len suf <=? len s)%nat && String.eqb (drop (len s - len suf) s) suf.

(** [s.lstrip(c)] for a single character [c]. *)
Fixpoint lstrip (c : ascii) (s : string) : string :=
  match s with
  | String a s' => if Ascii.eqb a c then lstrip c s' else s
  | "" => ""
  end.

(** [s.split(sep)] for a single character separator; never empty. *)
Fixpoint split (sep : ascii) (s : string) : list string :=
  match s with
  | "" => [""]
  | String c s' =>
      match split sep s' with
      | [] => [String c ""]
      | seg :: rest =>
          if Ascii.eqb c sep then "" :: seg :: rest
          else String c seg :: rest
      end
  end.

(** [l[-1]] on the result of a split. *)
Definition last_segment (sep : ascii) (s : string) : string :=
  List.last (split sep s) "".

(** [c.lower()] on code points below 256: A-Z, and the Latin-1 capitals
    U+00C0..U+00DE other than the multiplication sign U+00D7. *)
Definition lower_char (c : ascii) : ascii :=
  let n := nat_of_ascii c in
  if ((65 <=? n) && (n <=? 90))%nat then ascii_of_nat (n + 32)
  else if ((192 <=? n) && (n <=? 222) && negb (n =? 215))%nat
       then ascii_of_nat (n + 32)
  else c.

Fixpoint lower (s : string) : string :=
  match s with
  | "" => ""
  | String c s' => String (lower_char c) (lower s')
  end.

(** Characters removed by [s.strip()] (code points below 256). *)
Definition is_space (c : ascii) : bool :=
  let n := nat_of_ascii c in
  ((9 <=? n) && (n <=? 13) || (28 <=? n) && (n <=? 32)
   || (n =? 133) || (n =? 160))%nat.

Fixpoint lstrip_space (s : string) : string :=
  match s with
  | String a s' => if is_space a then lstrip_space s' else s
  | "" => ""
  end.

Definition strip (s : string) : string :=
  String.rev (lstrip_space (String.rev (lstrip_space s))).

(** [sep.join(l)]. *)
Definition join (sep : string) (l : list string) : string :=
  String.concat sep l.

(** [str(n)] for integers. *)
Definition of_Z (z : Z) : string := NilZero.string_of_int (Z.to_int z).
Definition of_nat (n : nat) : string := of_Z (Z.of_nat n).

(** Two lowercase hexadecimal digits of a code point. *)
Definition hex_digit (n : nat) : ascii :=
  if (n <? 10)%nat then ascii_of_nat (48 + n) else ascii_of_nat (87 + n).
Definition hex2 (c : ascii) : string :=
  let n := nat_of_ascii c in
  String (hex_digit (n / 16)) (String (hex_digit (n mod 16)) "").

End PyStr.

(** ** Python values

    The documents the tool reads are JSON values.  A float is carried as the
    text Python's [repr] prints for it, which is all the tool ever observes
    of a float.  A [dict] is the list of its items in insertion order; its
    keys are strings, pairwise distinct in a dict read from a document. *)

#[warnings="-register-all"] Inductive value :=
  | VNone
  | VBool (b : bool)
  | VInt (z : Z)
  | VFloat (repr : string)
  | VStr (s : string)
  | VList (l : list value)
  | VDict (d : list (string * value)).

(** [d.get(k)], [None] when the key is absent. *)
Fixpoint dict_lookup (d : list (string * value)) (k : string) : option value :=
  match d with
  | [] => None
  | (k', v) :: d' => if String.eqb k' k then Some v else dict_lookup d' k
  end.

Definition dict_get (d : list (string * value)) (k : string) : value :=
  default VNone (dict_lookup d k).

(** [d.get(k, dflt)]. *)
Definition dict_get_default (d : list (string * value)) (k : string)
    (dflt : value) : value :=
  default dflt (dict_lookup d k).

(** Truth value of an object, as tested by [if x:]. *)
Definition truthy (v : value) : bool :=
  match v with
  | VNone => false
  | VBool b => b
  | VInt z => negb (z =? 0)%Z
  | VFloat r => negb (String.eqb r "0.0" || String.eqb r "-0.0")
  | VStr s => negb (String.eqb s "")
  | VList l => match l with [] => false | _ => true end
  | VDict d => match d with [] => false | _ => true end
  end.

Definition is_none (v : value) : bool :=
  match v with VNone => true | _ => false end.

(** Induction over values, with the nested lists and mappings. *)
Section value_induction.
Variable P : value → Prop.
Hypothesis HNone : P VNone.
Hypothesis HBool : ∀ b, P (VBool b).
Hypothesis HInt : ∀ z, P (VInt z).
Hypothesis HFloat : ∀ r, P (VFloat r).
Hypothesis HStr : ∀ s, P (VStr s).
Hypothesis HList : ∀ l, Forall P l → P (VList l).
Hypothesis HDict : ∀ d, Forall (fun kv => P (snd kv)) d → P (VDict d).

Fixpoint value_nested_ind (v : value) : P v :=
  match v with
  | VNone => HNone
  | VBool b => HBool b
  | VInt z => HInt z
  | VFloat r => HFloat r
  | VStr s => HStr s
  | VList l =>
      HList l
        ((fix go (l : list value) : Forall P l :=
            match l with
            | [] => @List.Forall_nil _ P
            | x :: l' => @List.Forall_cons _ P x l' (value_nested_ind x) (go l')
            end) l)
  | VDict d =>
      HDict d
        ((fix go (d : list (string * value)) : Forall (fun kv => P (snd kv)) d :=
            match d with
            | [] => @List.Forall_nil _ (fun kv => P (snd kv))
            | kv :: d' =>
                @List.Forall_cons _ (fun kv => P (snd kv)) kv d'
                  (value_nested_ind (snd kv)) (go d')
            end) d)
  end.
End value_induction.

Module PyRepr.
Import PyStr.

Definition dquote : ascii := "034"%char.
Definition squote : ascii := "039"%char.
Definition backslash : ascii := "092"%char.

Fixpoint contains_char (c : ascii) (s : string) : bool :=
  match s with
  | "" => false
  | String a s' => Ascii.eqb a c || contains_char c s'
  end.

(** One character inside [repr(s)], [q] being the chosen quote. *)
Definition repr_char (q c : ascii) : string :=
  let n := nat_of_ascii c in
  if Ascii.eqb c q || Ascii.eqb c backslash then String backslash (String c "")
  else if (n =? 9)%nat then "\t"
  else if (n =? 10)%nat then "\n"
  else if (n =? 13)%nat then "\r"
  else if ((n <? 32) || (n =? 127))%nat then "\x" +:+ hex2 c
  else if (n <? 127)%nat then String c ""
  else if ((n <=? 160) || (n =? 173))%nat then "\x" +:+ hex2 c
  else String c "".

Fixpoint repr_chars (q : ascii) (s : string) : string :=
  match s with
  | "" => ""
  | String c s' => repr_char q c +:+ repr_chars q s'
  end.

(** [repr(s)] for a string. *)
Definition repr_str (s : string) : string :=
  let q := if contains_char squote s && negb (contains_char dquote s)
           then dquote else squote in
  String q (repr_chars q s +:+ String q "").

(** [repr(v)]. *)
Fixpoint repr (v : value) : string :=
  match v with
  | VNone => "None"
  | VBool b => if b then "True" else "False"
  | VInt z => of_Z z
  | VFloat r => r
  | VStr s => repr_str s
  | VList l => "[" +:+ join ", " (map repr l) +:+ "]"
  | VDict d =>
      "{" +:+ join ", " (map (fun kv => repr_str (fst kv) +:+ ": " +:+ repr (snd kv)) d)
          +:+ "}"
  end.

(** [str(v)], also what an f-string field formats to. *)
Definition str (v : value) : string :=
  match v with
  | VStr s => s
  | _ => repr v
  end.

(** One character inside a JSON string literal ([ensure_ascii=True]). *)
Definition json_char (c : ascii) : string :=
  let n := nat_of_ascii c in
  if Ascii.eqb c dquote then String backslash (String dquote "")
  else if Ascii.eqb c backslash then "\\"
  else if (n =? 10)%nat then "\n"
  else if (n =? 13)%nat then "\r"
  else if (n =? 9)%nat then "\t"
  else if (n =? 8)%nat then "\b"
  else if (n =? 12)%nat then "\f"
  else if ((n <? 32) || (126 <? n))%nat then "\u00" +:+ hex2 c
  else String c "".

Fixpoint json_chars (s : string) : string :=
  match s with
  | "" => ""
  | String c s' => json_char c +:+ json_chars s'
  end.

Definition json_str (s : string) : string :=
  String dquote (json_chars s +:+ String dquote "").

Definition json_float (r : string) : string :=
  if String.eqb r "nan" then "NaN"
  else if String.eqb r "inf" then "Infinity"
  else if String.eqb r "-inf" then "-Infinity"
  else r.

(** [json.dumps(v)] with the default separators. *)
Fixpoint json_dumps (v : value) : string :=
  match v with
  | VNone => "null"
  | VBool b => if b then "true" else "false"
  | VInt z => of_Z z
  | VFloat r => json_float r
  | VStr s => json_str s
  | VList l => "[" +:+ join ", " (map json_dumps l) +:+ "]"
  | VDict d =>
      "{" +:+ join ", "
               (map (fun kv => json_str (fst kv) +:+ ": " +:+ json_dumps (snd kv)) d)
          +:+ "}"
  end.

End PyRepr.

(** ** ValueNormalizer *)

Definition simplify_value (val : value) : value :=
  match val with
  | VNone => VStr ""
  | VBool _ | VInt _ | VFloat _ => VStr (PyRepr.str val)
  | VStr s =>
      if (120 <? PyStr.len s)%nat then VStr (PyStr.take 117 s +:+ "...")
      else val
  | VList _ | VDict _ => VStr (PyRepr.json_dumps val)
  end.

(** The pattern [{{.*?}}]: two opening braces, then as few characters other
    than a line feed as possible, then two closing braces. *)
Module Re.

Definition newline : ascii := "010"%char.

(** [.*?}}] matched at the start of [s]. *)
Fixpoint match_close (s : string) : bool :=
  String.prefix "}}" s ||
  match s with
  | "" => false
  | String c s' => negb (Ascii.eqb c newline) && match_close s'
  end.

(** [re.search(r"{{.*?}}", s)] finds a match. *)
Fixpoint search_placeholder (s : string) : bool :=
  match s with
  | "" => false
  | String _ s' =>
      String.prefix "{{" s && match_close (PyStr.drop 2 s) || search_placeholder s'
  end.

End Re.

Definition BOOLEAN_SUFFIXES : list (string * string) :=
  [("_true", "True"); ("_false", "False")].

(** Operations on the [key] argument, which is a [str] by annotation only. *)
Definition str_method (key : value) : result string :=
  match key with VStr k => Ok k | _ => Raise AttributeError end.

Definition str_arg (key : value) : result string :=
  match key with VStr k => Ok k | _ => Raise TypeError end.

(** [key + s] for a string [s]. *)
Definition add_str (key : value) (s : string) : result string :=
  match key with VStr k => Ok (k +:+ s) | _ => Raise TypeError end.

(** [len(x)]. *)
Definition py_len (x : value) : result nat :=
  match x with
  | VStr s => Ok (PyStr.len s)
  | VList l => Ok (length l)
  | VDict d => Ok (length d)
  | _ => Raise TypeError
  end.

(** The loop over [BOOLEAN_SUFFIXES.items()]: [Some mapped] when it returns
    from inside the loop, [None] when it falls through. *)
Fixpoint boolean_suffix_loop (key : value) (val lower_val : string)
    (items : list (string * string)) : result (option string) :=
  match items with
  | [] => Ok None
  | (suf, mapped) :: rest =>
      if PyStr.endswith lower_val suf then
        let prefix_part := PyStr.drop_last (PyStr.len suf) val in
        k ← str_method key;
        if PyStr.startswith k (PyStr.last_segment "." prefix_part)
           || PyStr.endswith prefix_part (PyStr.last_segment "." k)
        then Ok (Some mapped)
        else if String.eqb prefix_part k then Ok (Some mapped)
        else boolean_suffix_loop key val lower_val rest
      else boolean_suffix_loop key val lower_val rest
  end.

Definition simplify_display_value (key raw_val : value) : result value :=
  let val := simplify_value raw_val in
  match val with
  | VStr s =>
      if Re.search_placeholder s then Ok val
      else
        let lower_val := PyStr.lower s in
        m ← boolean_suffix_loop key s lower_val BOOLEAN_SUFFIXES;
        match m with
        | Some mapped => Ok (VStr mapped)
        | None =>
            kp ← add_str key "_";
            if PyStr.startswith s kp then
              n ← py_len key;
              Ok (VStr (PyStr.drop (n + 1) s))
            else
              k ← str_arg key;
              if PyStr.startswith s k then
                n ← py_len key;
                let remainder := PyStr.lstrip "_" (PyStr.drop n s) in
                if truthy (VStr remainder) then Ok (VStr remainder) else Ok val
              else Ok val
        end
  | _ => Ok val
  end.

(** ** TreeWalker: settings-catalog extraction *)

(** An output pair.  Both components are Python objects: the first is the
    identifier as found in the document (or an f-string built from it). *)
Definition setting : Type := value * value.

(** The body of the [for idx, item in enumerate(collection_block)] loop. *)
Definition walk_collection_item (sdid : value) (idx : nat) (item : value)
    (out : list setting) : result (list setting) :=
  match item with
  | VDict d =>
      let val := dict_get d "value" in
      if is_none val then Ok out
      else
        let k := PyRepr.str sdid +:+ "[" +:+ PyStr.of_nat idx +:+ "]" in
        v ← simplify_display_value sdid val;
        Ok (out ++ [(VStr k, v)])
  | _ => Ok out
  end.

Fixpoint walk_collection (sdid : value) (idx : nat) (items : list value)
    (out : list setting) : result (list setting) :=
  match items with
  | [] => Ok out
  | item :: rest =>
      out' ← walk_collection_item sdid idx item out;
      walk_collection sdid (S idx) rest out'
  end.

(** A single-value carrier ([choiceSettingValue] or [simpleSettingValue]). *)
Definition walk_single (sdid block : value) (out : list setting)
    : result (list setting) :=
  match block with
  | VDict b =>
      let val := dict_get b "value" in
      if is_none val then Ok out
      else v ← simplify_display_value sdid val; Ok (out ++ [(sdid, v)])
  | _ => Ok out
  end.

(** The carrier inspection of one mapping node (the [if sdid:] block). *)
Definition walk_carriers (node : list (string * value)) (out : list setting)
    : result (list setting) :=
  let sdid := dict_get node "settingDefinitionId" in
  if truthy sdid then
    out1 ← walk_single sdid (dict_get node "choiceSettingValue") out;
    out2 ← walk_single sdid (dict_get node "simpleSettingValue") out1;
    match dict_get node "simpleSettingCollectionValue" with
    | VList items => walk_collection sdid 0 items out2
    | _ => Ok out2
    end
  else Ok out.

Fixpoint walk (node : value) (out : list setting) {struct node}
    : result (list setting) :=
  match node with
  | VDict d =>
      out1 ← walk_carriers d out;
      (fix walk_values (l : list (string * value)) (out : list setting)
           : result (list setting) :=
         match l with
         | [] => Ok out
         | kv :: l' => out' ← walk (snd kv) out; walk_values l' out'
         end) d out1
  | VList l =>
      (fix walk_items (l : list value) (out : list setting)
           : result (list setting) :=
         match l with
         | [] => Ok out
         | item :: l' => out' ← walk item out; walk_items l' out'
         end) l out
  | _ => Ok out
  end.

Definition extract_settings_catalog (json_doc : list (string * value))
    : result (list setting) :=
  let settings := dict_get_default json_doc "settings" (VList []) in
  walk settings [].

(** ** CompliancePolicyExtractor *)

Definition IGNORE_KEYS : list string :=
  ["@odata.type"; "displayName"; "description"; "id"; "createdDateTime";
   "lastModifiedDateTime"; "version"; "roleScopeTagIds"].

(** What [for ... in enumerate(x)] iterates over. *)
Definition iter_values (x : value) : list value :=
  match x with
  | VList l => l
  | VDict d => map (fun kv => VStr (fst kv)) d
  | VStr s => map (fun c => VStr (String c "")) (list_ascii_of_string s)
  | _ => []
  end.

(** The [for cidx, config in enumerate(configs)] loop. *)
Fixpoint compliance_actions (key rule_name : string) (cidx : nat)
    (configs : list value) (out : list setting) : list setting :=
  match configs with
  | [] => out
  | config :: rest =>
      let out' :=
        match config with
        | VDict c =>
            let action_type := dict_get_default c "actionType" (VStr "unknown") in
            let grace := dict_get_default c "gracePeriodHours" (VInt 0) in
            out ++ [(VStr (key +:+ "." +:+ rule_name +:+ ".action_" +:+ PyStr.of_nat cidx),
                     VStr (PyRepr.str action_type +:+ " (grace: " +:+ PyRepr.str grace +:+ "h)"))]
        | _ => out
        end in
      compliance_actions key rule_name (S cidx) rest out'
  end.

(** The body of the [for idx, rule in enumerate(value)] loop. *)
Definition compliance_rule (key : string) (idx : nat) (rule : value)
    (out : list setting) : result (list setting) :=
  match rule with
  | VDict r =>
      let rule_name :=
        PyRepr.str (dict_get_default r "ruleName"
                      (VStr ("rule_" +:+ PyStr.of_nat idx))) in
      let configs := dict_get_default r "scheduledActionConfigurations" (VList []) in
      if truthy configs then
        n ← py_len configs;
        Ok (compliance_actions key rule_name 0 (iter_values configs)
              (out ++ [(VStr (key +:+ "." +:+ rule_name +:+ ".actionCount"),
                        VStr (PyStr.of_nat n))]))
      else Ok out
  | _ => Ok out
  end.

Fixpoint compliance_rules (key : string) (idx : nat) (rules : list value)
    (out : list setting) : result (list setting) :=
  match rules with
  | [] => Ok out
  | rule :: rest =>
      out' ← compliance_rule key idx rule out;
      compliance_rules key (S idx) rest out'
  end.

Definition is_list (v : value) : bool :=
  match v with VList _ => true | _ => false end.

(** The [for key, value in json_doc.items()] loop. *)
Fixpoint compliance_fields (items : list (string * value)) (out : list setting)
    : result (list setting) :=
  match items with
  | [] => Ok out
  | (key, val) :: rest =>
      if bool_decide (key ∈ IGNORE_KEYS) then compliance_fields rest out
      else if String.eqb key "scheduledActionsForRule" && is_list val then
        out' ← compliance_rules key 0 (iter_values val) out;
        compliance_fields rest out'
      else compliance_fields rest (out ++ [(VStr key, simplify_value val)])
  end.

Definition extract_compliance_policy (json_doc : list (string * value))
    : result (list setting) :=
  compliance_fields json_doc [].

(** ** ArtifactClassifier *)

Definition is_lower_az (c : ascii) : bool :=
  let n := nat_of_ascii c in (97 <=? n)%nat && (n <=? 122)%nat.

Definition is_digit (c : ascii) : bool :=
  let n := nat_of_ascii c in (48 <=? n)%nat && (n <=? 57)%nat.

(** [re.match(r"([a-z]{3})-([a-z]{3})-(\d{3})", name)]: the first group when
    the start of [name] matches. *)
Definition match_ref_id (name : string) : option string :=
  match name with
  | String a (String b (String c (String d (String e (String f (String g
      (String h (String i (String j (String k _)))))))))) =>
      if is_lower_az a && is_lower_az b && is_lower_az c && Ascii.eqb d "-"
         && is_lower_az e && is_lower_az f && is_lower_az g && Ascii.eqb h "-"
         && is_digit i && is_digit j && is_digit k
      then Some (String a (String b (String c "")))
      else None
  | _ => None
  end.

Definition mapping : list (string * string) :=
  [("pol", "Policy"); ("cfg", "CustomConfig"); ("cmp", "Compliance");
   ("scr", "Script"); ("cat", "CustomAttribute"); ("app", "Package")].

Fixpoint mapping_lookup (m : list (string * string)) (k : string) : option string :=
  match m with
  | [] => None
  | (k', v) :: m' => if String.eqb k' k then Some v else mapping_lookup m' k
  end.

(** [classify_type(path)], as a function of [path.name]. *)
Definition classify_type (name : string) : string :=
  match match_ref_id name with
  | Some prefix => default "Unknown" (mapping_lookup mapping prefix)
  | None =>
      if PyStr.endswith name ".mobileconfig" then "CustomConfig" else "Policy"
  end.

(** ** ArtifactAggregator *)

Record entry := {
  ref : string;
  type : string;
  relpath : string;
  name : option string;
  description : option string;
  settings : list setting;
  count : nat
}.

(** A parsed XML element: tag, text and children. *)
#[warnings="-register-all"] Inductive element :=
  | Element (tag : string) (text : option string) (children : list element).

Definition tag (e : element) : string := let 'Element t _ _ := e in t.
Definition text (e : element) : option string := let 'Element _ t _ := e in t.
Definition children (e : element) : list element := let 'Element _ _ c := e in c.

(** [el.find(t)]: the first child with tag [t]. *)
Definition find (el : element) (t : string) : option element :=
  List.find (fun c => String.eqb (tag c) t) (children el).

(** [el.text.strip()]; the text of an empty element is [None]. *)
Definition text_strip (el : element) : result string :=
  match text el with
  | Some s => Ok (PyStr.strip s)
  | None => Raise AttributeError
  end.

(** [el.text.strip() if el is not None and el.text else dflt]. *)
Definition text_or (el : option element) (dflt : option string) : option string :=
  match el with
  | Some e =>
      match text e with
      | Some s => if truthy (VStr s) then Some (PyStr.strip s) else dflt
      | None => dflt
      end
  | None => dflt
  end.

(** The [for child in list(subtree)] loop. *)
Fixpoint subtree_settings (cs : list element) (settings : list setting)
    : list setting :=
  match cs with
  | [] => settings
  | child :: rest =>
      match text child with
      | Some s =>
          if truthy (VStr s)
          then subtree_settings rest (settings ++ [(VStr (tag child), VStr (PyStr.strip s))])
          else subtree_settings rest settings
      | None => subtree_settings rest settings
      end
  end.

Definition manifest_only_kinds : list string := ["Script"; "Package"; "CustomAttribute"].

Definition identity (e : entry) : string * string * string :=
  (ref e, type e, relpath e).

(** The deduplication loop with its [seen] set. *)
Fixpoint dedup_loop (entries : list entry) (seen : gset (string * string * string))
    (deduped : list entry) : list entry :=
  match entries with
  | [] => deduped
  | e :: rest =>
      let key := identity e in
      if decide (key ∈ seen) then dedup_loop rest seen deduped
      else dedup_loop rest ({[key]} ∪ seen) (deduped ++ [e])
  end.

(** [deduped.sort(key=lambda x: x['ref'])]: the stable ascending sort,
    comparing keys with [<] only. *)
Fixpoint sort_insert (x : entry) (l : list entry) : list entry :=
  match l with
  | [] => [x]
  | y :: l' =>
      if String.ltb (ref y) (ref x) then y :: sort_insert x l'
      else x :: y :: l'
  end.

Definition sort_by_ref (l : list entry) : list entry :=
  foldr sort_insert [] l.

(** The final merge step: lines 540-550. *)
Definition merge_entries (entries : list entry) : list entry :=
  sort_by_ref (dedup_loop entries ∅ []).

Section Aggregator.

(** The file system as seen from the repository root: whether
    [REPO_ROOT / rel] exists, and the stem of that path. *)
Variable path_exists : string → bool.
Variable path_stem : string → string.

(** The body of the manifest loop for one parsed manifest: [Ok None] when
    the manifest is passed over by a [continue], [Raise] when the body
    raises (caught by the loop's [except]). *)
Definition manifest_entry (entries : list entry) (mpath_stem : string)
    (root : element) : result (option entry) :=
  if negb (String.eqb (tag root) "MacIntuneManifest") then Ok None
  else
    let type_el := find root "Type" in
    let src_el := find root "SourceFile" in
    let name_el := find root "Name" in
    let desc_el := find root "Description" in
    match type_el, src_el with
    | Some type_el, Some src_el =>
        artifact_type ← text_strip type_el;
        rel_source ← text_strip src_el;
        if bool_decide (artifact_type ∈ ["Policy"; "CustomConfig"; "Compliance"])
           && PyStr.endswith rel_source ".json"
        then Ok None
        else if String.eqb artifact_type "CustomConfig"
                && PyStr.endswith rel_source ".mobileconfig"
        then Ok None
        else
          let already := existsb (fun e => String.eqb (relpath e) rel_source) entries in
          if already then Ok None
          else
            let settings :=
              if bool_decide (artifact_type ∈ manifest_only_kinds) then
                match find root artifact_type with
                | Some subtree => subtree_settings (children subtree) []
                | None => []
                end
              else [] in
            Ok (Some {|
              ref := if path_exists rel_source then path_stem rel_source
                     else mpath_stem;
              type := artifact_type;
              relpath := rel_source;
              name := text_or name_el None;
              description := text_or desc_el (Some "");
              settings := settings;
              count := length settings |})
    | _, _ => Ok None
    end.

(** The [for mpath in xml_manifests] loop.  Each manifest comes with the
    stem of its own path and the outcome of [ET.parse] ([None] when the
    file does not parse). *)
Fixpoint manifest_loop (manifests : list (string * option element))
    (entries : list entry) : list entry :=
  match manifests with
  | [] => entries
  | (mpath_stem, parsed) :: rest =>
      match parsed with
      | Some root =>
          match manifest_entry entries mpath_stem root with
          | Ok (Some e) => manifest_loop rest (entries ++ [e])
          | _ => manifest_loop rest entries
          end
      | None => manifest_loop rest entries
      end
  end.

(** [build_entries], given what its three sources read from disk:
    the entries appended by the JSON loop, the manifests found by
    [rglob], and the entries appended by the profile-bundle loop. *)
Definition build_entries (json_entries : list entry)
    (xml_manifests : list (string * option element))
    (mc_entries : list entry) : list entry :=
  let entries := json_entries in
  let entries := manifest_loop xml_manifests entries in
  let entries := entries ++ mc_entries in
  merge_entries entries.

End Aggregator.

(** ** PayloadExtractor: profile-bundle extraction *)

(** A property-list value as [plistlib] loads it.  A real is carried as its
    [repr] text, data ([bytes]) as its [repr] text, a date by the texts that
    [str] and [repr] print for it. *)
#[warnings="-register-all"] Inductive plist :=
  | PStr (s : string)
  | PInt (z : Z)
  | PReal (repr : string)
  | PBool (b : bool)
  | PData (repr : string)
  | PDate (str_text repr_text : string)
  | PList (l : list plist)
  | PDict (d : list (string * plist)).

Definition METADATA_KEYS : list string :=
  ["PayloadDisplayName"; "PayloadIdentifier"; "PayloadType"; "PayloadUUID";
   "PayloadVersion"].

Fixpoint plist_lookup (d : list (string * plist)) (k : string) : option plist :=
  match d with
  | [] => None
  | (k', v) :: d' => if String.eqb k' k then Some v else plist_lookup d' k
  end.

(** [repr(v)] and [str(v)] of a property-list value. *)
Fixpoint plist_repr (v : plist) : string :=
  match v with
  | PStr s => PyRepr.repr_str s
  | PInt z => PyStr.of_Z z
  | PReal r => r
  | PBool b => if b then "True" else "False"
  | PData r => r
  | PDate _ r => r
  | PList l => "[" +:+ PyStr.join ", " (map plist_repr l) +:+ "]"
  | PDict d =>
      "{" +:+ PyStr.join ", "
               (map (fun kv => PyRepr.repr_str (fst kv) +:+ ": " +:+ plist_repr (snd kv)) d)
          +:+ "}"
  end.

Definition plist_str (v : plist) : string :=
  match v with
  | PStr s => s
  | PDate s _ => s
  | _ => plist_repr v
  end.

(** The value of a field that is an instance of [str], [int] or [float]
    (a [bool] is an [int]). *)
Definition plist_scalar (v : plist) : option value :=
  match v with
  | PStr s => Some (VStr s)
  | PInt z => Some (VInt z)
  | PReal r => Some (VFloat r)
  | PBool b => Some (VBool b)
  | _ => None
  end.

(** The pair of one payload field, if it yields one. *)
Definition payload_field (prefix : string) (k : string) (v : plist)
    (out : list setting) : list setting :=
  if bool_decide (k ∈ METADATA_KEYS) then out
  else
    match plist_scalar v with
    | Some sv => out ++ [(VStr (prefix +:+ "." +:+ k), simplify_value sv)]
    | None =>
        match v with
        | PList _ => out ++ [(VStr (prefix +:+ "." +:+ k), VStr "complex:list")]
        | PDict _ => out ++ [(VStr (prefix +:+ "." +:+ k), VStr "complex:dict")]
        | _ => out
        end
    end.

(** The [for k, v in payload.items()] loop. *)
Fixpoint payload_fields (prefix : string) (items : list (string * plist))
    (out : list setting) : list setting :=
  match items with
  | [] => out
  | (k, v) :: rest => payload_fields prefix rest (payload_field prefix k v out)
  end.

(** The body of the [for payload in payloads] loop. *)
Definition payload_step (payload : plist) (out : list setting) : list setting :=
  match payload with
  | PDict p =>
      let prefix := plist_str (default (PStr "payload") (plist_lookup p "PayloadType")) in
      payload_fields prefix p out
  | _ => out
  end.

(** What [for payload in payloads] iterates over; a number, a truth value
    or a date is not iterable.  A string gives its characters and a mapping
    its keys.  Data gives numbers, which the loop body passes over like any
    element that is not a mapping: the model, which carries data by its
    [repr] text only, iterates over none. *)
Definition plist_iter (payloads : plist) : result (list plist) :=
  match payloads with
  | PList l => Ok l
  | PDict d => Ok (map (fun kv => PStr (fst kv)) d)
  | PStr s => Ok (map (fun c => PStr (String c "")) (list_ascii_of_string s))
  | PData _ => Ok []
  | PInt _ | PReal _ | PBool _ | PDate _ _ => Raise TypeError
  end.

Definition extract_mobileconfig (plist_doc : list (string * plist))
    : result (list setting) :=
  let payloads := default (PList []) (plist_lookup plist_doc "PayloadContent") in
  items ← plist_iter payloads;
  Ok (foldl (fun out payload => payload_step payload out) [] items).

(** ** Table rendering *)

Definition nl : string := String Re.newline "".

(** One table line [| `k` | `v` |]. *)
Definition table_row (row : setting) : string :=
  "| `" +:+ PyRepr.str (fst row) +:+ "` | `" +:+ PyRepr.str (snd row) +:+ "` |" +:+ nl.

Definition format_table (rows : list setting) : string :=
  match rows with
  | [] => "_No payload settings discovered_" +:+ nl
  | _ =>
      let header := "| Key | Value |" +:+ nl +:+ "|-----|-------|" +:+ nl in
      let body := PyStr.join "" (map table_row rows) in
      header +:+ body
  end.

(** [s.replace(a, b)] for single characters. *)
Fixpoint replace_char (a b : ascii) (s : string) : string :=
  match s with
  | "" => ""
  | String c s' => String (if Ascii.eqb c a then b else c) (replace_char a b s')
  end.

(** [anchor_for] of [generate_markdown]. *)
Definition anchor_for (ref type_ : string) : string :=
  let anchor_base := ref +:+ "-" +:+ PyStr.lower type_ in
  PyStr.lower (replace_char " " "-" anchor_base).

(** ** FormatDetector and the JSON loop of [build_entries] *)

(** [sub in s] for strings. *)
Fixpoint str_contains (sub s : string) : bool :=
  String.prefix sub s
  || match s with
     | "" => false
     | String _ s' => str_contains sub s'
     end.

(** [sub in x] for a string [sub]: substring of a string, element of a
    list, key of a mapping. *)
Definition py_in (sub : string) (x : value) : result bool :=
  match x with
  | VStr s => Ok (str_contains sub s)
  | VList l =>
      Ok (existsb (fun v => match v with VStr s => String.eqb s sub | _ => false end) l)
  | VDict d => Ok (existsb (fun kv => String.eqb (fst kv) sub) d)
  | _ => Raise TypeError
  end.

(** [x.endswith(suf)]. *)
Definition endswith_method (x : value) (suf : string) : result bool :=
  match x with
  | VStr s => Ok (PyStr.endswith s suf)
  | _ => Raise AttributeError
  end.

Definition is_nil {A} (l : list A) : bool :=
  match l with [] => true | _ => false end.

(** The [for k, v in pr.items()] loop of the enrollment-restriction fallback. *)
Definition platform_restriction (pr : list (string * value)) (settings : list setting)
    : list setting :=
  foldl (fun acc kv =>
           acc ++ [(VStr ("platformRestriction." +:+ fst kv), simplify_value (snd kv))])
        settings pr.

(** The second link of the chain: compliance-policy extraction when
    nothing was found and the type marker mentions [CompliancePolicy]. *)
Definition compliance_fallback (doc : list (string * value)) (odata_type : value)
    (settings : list setting) : result (list setting) :=
  if is_nil settings then
    c ← py_in "CompliancePolicy" odata_type;
    if c : bool then extract_compliance_policy doc else Ok settings
  else Ok settings.

(** The third link: the fields of the restriction sub-object when still
    nothing was found and the type marker ends in
    [deviceEnrollmentPlatformRestriction]. *)
Definition restriction_fallback (doc : list (string * value)) (odata_type : value)
    (settings : list setting) : result (list setting) :=
  if is_nil settings then
    e ← endswith_method odata_type "deviceEnrollmentPlatformRestriction";
    if e : bool then
      match dict_get_default doc "platformRestriction" (VDict []) with
      | VDict pr => Ok (platform_restriction pr settings)
      | _ => Ok settings
      end
    else Ok settings
  else Ok settings.

(** The extraction chain of the JSON loop for one document. *)
Definition json_settings (doc : list (string * value)) : result (list setting) :=
  let odata_type := dict_get_default doc "@odata.type" (VStr "") in
  settings ← extract_settings_catalog doc;
  settings ← compliance_fallback doc odata_type settings;
  restriction_fallback doc odata_type settings.

(** What [load_manifest_metadata] returns. *)
Record manifest_meta := {
  meta_name : option string;
  meta_description : option string;
  meta_type : option string
}.

(** [load_manifest_metadata], given the parsed sidecar manifest ([None]
    when there is no such file or it does not parse). *)
Definition load_manifest_metadata (sidecar : option element) : manifest_meta :=
  match sidecar with
  | Some root =>
      {| meta_name := text_or (find root "Name") None;
         meta_description := text_or (find root "Description") None;
         meta_type := text_or (find root "Type") None |}
  | None =>
      {| meta_name := None; meta_description := None; meta_type := None |}
  end.

(** A JSON file as the loop sees it: [f.name], [f.stem], the path relative
    to the repository root, what [safe_read_json] returns ([None] when the
    file does not parse) and its sidecar manifest. *)
Record json_file := {
  file_name : string;
  file_stem : string;
  file_rel : string;
  file_doc : option value;
  file_sidecar : option element
}.

(** [doc.get] and the extractors need a mapping. *)
Definition as_dict (doc : value) : result (list (string * value)) :=
  match doc with
  | VDict d => Ok d
  | _ => Raise AttributeError
  end.

(** The body of the JSON loop: [Ok None] on [continue]. *)
Definition json_entry (f : json_file) : result (option entry) :=
  let doc := default VNone (file_doc f) in
  if negb (truthy doc) then Ok None
  else
    d ← as_dict doc;
    settings ← json_settings d;
    let manifest := load_manifest_metadata (file_sidecar f) in
    let derived_type := default (classify_type (file_name f)) (meta_type manifest) in
    Ok (Some {|
      ref := file_stem f;
      type := derived_type;
      relpath := file_rel f;
      name := meta_name manifest;
      description := meta_description manifest;
      settings := settings;
      count := length settings |}).

(** The [for f in json_files] loop; an exception of the body is not caught. *)
Fixpoint json_loop (files : list json_file) (entries : list entry)
    : result (list entry) :=
  match files with
  | [] => Ok entries
  | f :: rest =>
      r ← json_entry f;
      match r with
      | Some e => json_loop rest (entries ++ [e])
      | None => json_loop rest entries
      end
  end.

(** ** Notions used in the statements *)

(** [v] contains a placeholder token: two opening braces, any characters
    other than a line feed, two closing braces. *)
Definition has_placeholder (v : string) : Prop :=
  ∃ a b c : string,
    v = a +:+ "{{" +:+ b +:+ "}}" +:+ c
    ∧ PyRepr.contains_char Re.newline b = false.

(** The boolean-suffix rule for the suffix token [suf]: the value ends in
    [suf] whatever the case of its letters, and the part before it equals
    [key], or its last dot-segment starts [key], or it ends with the last
    dot-segment of [key]. *)
Definition boolean_suffix_rule (key val suf : string) : bool :=
  PyStr.endswith (PyStr.lower val) suf
  && (let prefix_part := PyStr.drop_last (PyStr.len suf) val in
      String.eqb prefix_part key
      || PyStr.startswith key (PyStr.last_segment "." prefix_part)
      || PyStr.endswith prefix_part (PyStr.last_segment "." key)).

(** A text of 130 characters. *)
Definition long_text : string :=
  String.concat "" (replicate 13 "0123456789").

(** *** TreeWalker *)

(** Every setting-definition identifier met in [v] is a string, or is
    passed over by the [if sdid:] test. *)
Fixpoint string_ids (v : value) : bool :=
  match v with
  | VDict d =>
      match dict_get d "settingDefinitionId" with
      | VStr _ => true
      | sdid => negb (truthy sdid)
      end
      && forallb (fun kv => string_ids (snd kv)) d
  | VList l => forallb string_ids l
  | _ => true
  end.

(** The display string of a raw value under a string key
    ([simplify_display_value] never raises on a string key). *)
Definition display (key : string) (raw : value) : value :=
  match simplify_display_value (VStr key) raw with
  | Ok v => v
  | Raise _ => VNone
  end.

(** The pairs a node contributes, as a function of the node alone. *)
Definition single_pairs (sdid : string) (block : value) : list setting :=
  match block with
  | VDict b =>
      if is_none (dict_get b "value") then []
      else [(VStr sdid, display sdid (dict_get b "value"))]
  | _ => []
  end.

(** The pair of the collection entry at position [idx], if it has one. *)
Definition collection_pair (sdid : string) (idx : nat) (item : value) : list setting :=
  match item with
  | VDict d =>
      if is_none (dict_get d "value") then []
      else [(VStr (sdid +:+ "[" +:+ PyStr.of_nat idx +:+ "]"),
             display sdid (dict_get d "value"))]
  | _ => []
  end.

Fixpoint collection_pairs (sdid : string) (idx : nat) (items : list value)
    : list setting :=
  match items with
  | [] => []
  | item :: rest => collection_pair sdid idx item ++ collection_pairs sdid (S idx) rest
  end.

(** The pairs of the three carriers of a node, in inspection order. *)
Definition carrier_pairs (node : list (string * value)) : list setting :=
  match dict_get node "settingDefinitionId" with
  | VStr sdid =>
      if truthy (VStr sdid) then
        single_pairs sdid (dict_get node "choiceSettingValue")
        ++ single_pairs sdid (dict_get node "simpleSettingValue")
        ++ match dict_get node "simpleSettingCollectionValue" with
           | VList items => collection_pairs sdid 0 items
           | _ => []
           end
      else []
  | _ => []
  end.

(** The output of the traversal in document order. *)
Fixpoint walk_pairs (v : value) : list setting :=
  match v with
  | VDict d => carrier_pairs d ++ flat_map (fun kv => walk_pairs (snd kv)) d
  | VList l => flat_map walk_pairs l
  | _ => []
  end.

(** The loop [for v in node.values(): walk(v)], named. *)
Fixpoint walk_values (l : list (string * value)) (out : list setting)
    : result (list setting) :=
  match l with
  | [] => Ok out
  | kv :: l' => out' ← walk (snd kv) out; walk_values l' out'
  end.

Fixpoint walk_items (l : list value) (out : list setting) : result (list setting) :=
  match l with
  | [] => Ok out
  | item :: l' => out' ← walk item out; walk_items l' out'
  end.

(** A setting node with a choice value and a collection of values. *)
Definition sample_node : list (string * value) :=
  [("settingDefinitionId", VStr "com.acme.list");
   ("choiceSettingValue", VDict [("value", VStr "com.acme.list_true"); ("children", VList [])]);
   ("simpleSettingCollectionValue",
      VList [VDict [("value", VInt 1)]; VStr "skipped"; VDict [("value", VInt 2)]])].

(** *** CompliancePolicyExtractor *)

(** The value of an action pair: action type and grace period. *)
Definition action_value (config : list (string * value)) : string :=
  PyRepr.str (dict_get_default config "actionType" (VStr "unknown"))
  +:+ " (grace: "
  +:+ PyRepr.str (dict_get_default config "gracePeriodHours" (VInt 0))
  +:+ "h)".

(** One pair per action configuration that is a mapping, numbered by its
    position in the list. *)
Fixpoint action_pairs (key rule_name : string) (cidx : nat) (configs : list value)
    : list setting :=
  match configs with
  | [] => []
  | config :: rest =>
      match config with
      | VDict c =>
          [(VStr (key +:+ "." +:+ rule_name +:+ ".action_" +:+ PyStr.of_nat cidx),
            VStr (action_value c))]
      | _ => []
      end ++ action_pairs key rule_name (S cidx) rest
  end.

(** The name of a rule, [rule_<idx>] when it has none. *)
Definition rule_name_of (idx : nat) (r : list (string * value)) : string :=
  PyRepr.str (dict_get_default r "ruleName" (VStr ("rule_" +:+ PyStr.of_nat idx))).

(** The pairs of one rule whose action configurations form a list: nothing
    when the list is empty, else the count and then the actions. *)
Definition rule_pairs (key : string) (idx : nat) (rule : value) : list setting :=
  match rule with
  | VDict r =>
      match dict_get_default r "scheduledActionConfigurations" (VList []) with
      | VList [] => []
      | VList configs =>
          (VStr (key +:+ "." +:+ rule_name_of idx r +:+ ".actionCount"),
           VStr (PyStr.of_nat (length configs)))
          :: action_pairs key (rule_name_of idx r) 0 configs
      | _ => []
      end
  | _ => []
  end.

(** The pairs of the rule list, rule after rule. *)
Fixpoint rules_pairs (key : string) (idx : nat) (rules : list value) : list setting :=
  match rules with
  | [] => []
  | rule :: rest => rule_pairs key idx rule ++ rules_pairs key (S idx) rest
  end.

(** The pairs of one top-level field: none for a metadata field, the rule
    pairs for the rule list, else the field with its normalised value. *)
Definition field_pairs (kv : string * value) : list setting :=
  if bool_decide (fst kv ∈ IGNORE_KEYS) then []
  else
    match snd kv with
    | VList rules =>
        if String.eqb (fst kv) "scheduledActionsForRule"
        then rules_pairs (fst kv) 0 rules
        else [(VStr (fst kv), simplify_value (snd kv))]
    | v => [(VStr (fst kv), simplify_value v)]
    end.

(** A rule object whose action configurations, when present, form a list. *)
Definition rule_wf (rule : value) : bool :=
  match rule with
  | VDict r => is_list (dict_get_default r "scheduledActionConfigurations" (VList []))
  | _ => true
  end.

(** Every rule of the document's rule list is such a rule object. *)
Definition rules_wf (doc : list (string * value)) : Prop :=
  ∀ rules, ("scheduledActionsForRule", VList rules) ∈ doc →
           forallb rule_wf rules = true.

(** A compliance policy with one rule that schedules no action. *)
Definition empty_rule_doc : list (string * value) :=
  [("@odata.type", VStr "#microsoft.graph.macOSCompliancePolicy");
   ("scheduledActionsForRule",
      VList [VDict [("ruleName", VStr "r");
                    ("scheduledActionConfigurations", VList [])]])].

(** A compliance policy with one rule that schedules two actions. *)
Definition block_rule_doc : list (string * value) :=
  [("@odata.type", VStr "#microsoft.graph.macOSCompliancePolicy");
   ("passwordRequired", VBool true);
   ("scheduledActionsForRule",
      VList [VDict [("ruleName", VStr "PasswordRequired");
                    ("scheduledActionConfigurations",
                       VList [VDict [("actionType", VStr "block");
                                     ("gracePeriodHours", VInt 24)];
                              VDict [("actionType", VStr "notification")]])]])].

(** *** ArtifactClassifier *)

(** Every character of [s] satisfies [f]. *)
Fixpoint str_all (f : ascii → bool) (s : string) : bool :=
  match s with
  | "" => true
  | String c s' => f c && str_all f s'
  end.

(** [name] starts with a reference id whose first group is [prefix]: three
    lowercase letters, a hyphen, three lowercase letters, a hyphen, three
    digits. *)
Definition starts_with_ref_id (name prefix : string) : Prop :=
  ∃ mid num rest : string,
    name = prefix +:+ "-" +:+ mid +:+ "-" +:+ num +:+ rest
    ∧ PyStr.len prefix = 3 ∧ str_all is_lower_az prefix = true
    ∧ PyStr.len mid = 3 ∧ str_all is_lower_az mid = true
    ∧ PyStr.len num = 3 ∧ str_all is_digit num = true.

(** *** ArtifactAggregator *)

(** The entries that survive deduplication, as a function of the input
    alone: those whose identity is neither in [seen] nor met earlier. *)
Fixpoint keep_first (entries : list entry) (seen : gset (string * string * string))
    : list entry :=
  match entries with
  | [] => []
  | e :: rest =>
      if decide (identity e ∈ seen) then keep_first rest seen
      else e :: keep_first rest ({[identity e]} ∪ seen)
  end.

(** [e] is the first entry of [entries] with its identity. *)
Definition first_occurrence (e : entry) (entries : list entry) : Prop :=
  ∃ pre post, entries = pre ++ (e :: post) ∧ identity e ∉ (identity <$> pre).

(** Ascending order of the [ref] strings. *)
Definition ref_le (a b : entry) : Prop := String.le (ref a) (ref b).

(** A manifest that declares a profile bundle as a [Policy]. *)
Definition stray_manifest : element :=
  Element "MacIntuneManifest" None
    [Element "Name" (Some "Wi-Fi profile") [];
     Element "Type" (Some "Policy") [];
     Element "SourceFile" (Some "configurations/intune/pol-net-001.mobileconfig") []].

(** The entry the profile-bundle loop produces for the bundle of
    [stray_manifest], whose type the manifest overrides. *)
Definition bundle_entry : entry :=
  {| ref := "pol-net-001";
     type := "Policy";
     relpath := "configurations/intune/pol-net-001.mobileconfig";
     name := Some "Wi-Fi profile";
     description := Some "";
     settings := [(VStr "com.apple.wifi.managed.SSID_STR", VStr "corp")];
     count := 1 |}.

(** *** Notions used in the further properties *)

(** Both components of the pair are strings. *)
Definition str_pair (p : setting) : Prop := ∃ k v, p = (VStr k, VStr v).

(** A number or a truth value. *)
Definition is_number (v : value) : bool :=
  match v with
  | VBool _ | VInt _ | VFloat _ => true
  | _ => false
  end.

Definition is_mapping (v : value) : bool :=
  match v with VDict _ => true | _ => false end.

(** The key of the pair is a string that is not a metadata field name. *)
Definition key_kept (p : setting) : Prop :=
  ∃ k, p.1 = VStr k ∧ k ∉ IGNORE_KEYS.

(** The manifests the loop passes over: a file that does not parse, another
    root tag, a missing or empty [Type] or [SourceFile] element, a type and
    source extension handled by the primary loops, or a source path already
    among the entries. *)
Definition passed_over (entries : list entry) (parsed : option element) : Prop :=
  match parsed with
  | None => True
  | Some root =>
      tag root ≠ "MacIntuneManifest"
      ∨ find root "Type" = None
      ∨ find root "SourceFile" = None
      ∨ (∃ el, find root "Type" = Some el ∧ text el = None)
      ∨ (∃ el, find root "SourceFile" = Some el ∧ text el = None)
      ∨ ∃ type_el src_el t s,
          find root "Type" = Some type_el ∧ text type_el = Some t
          ∧ find root "SourceFile" = Some src_el ∧ text src_el = Some s
          ∧ ((PyStr.strip t ∈ ["Policy"; "CustomConfig"; "Compliance"]
              ∧ PyStr.endswith (PyStr.strip s) ".json" = true)
             ∨ (PyStr.strip t = "CustomConfig"
                ∧ PyStr.endswith (PyStr.strip s) ".mobileconfig" = true)
             ∨ PyStr.strip s ∈ (relpath <$> entries))
  end.

(** The display prefix of a payload. *)
Definition payload_prefix (p : list (string * plist)) : string :=
  plist_str (default (PStr "payload") (plist_lookup p "PayloadType")).

(** The value shown for a field: the normalised scalar, a summary of a
    nested structure, nothing for data and dates. *)
Definition field_value (v : plist) : option value :=
  match v with
  | PStr s => Some (simplify_value (VStr s))
  | PInt z => Some (simplify_value (VInt z))
  | PReal r => Some (simplify_value (VFloat r))
  | PBool b => Some (simplify_value (VBool b))
  | PList _ => Some (VStr "complex:list")
  | PDict _ => Some (VStr "complex:dict")
  | PData _ | PDate _ _ => None
  end.

(** The pairs of a payload, field after field. *)
Definition field_pair (prefix : string) (kv : string * plist) : list setting :=
  if bool_decide (kv.1 ∈ METADATA_KEYS) then []
  else match field_value kv.2 with
       | Some val => [(VStr (prefix +:+ "." +:+ kv.1), val)]
       | None => []
       end.

Definition payload_pairs (payload : plist) : list setting :=
  match payload with
  | PDict p => flat_map (field_pair (payload_prefix p)) p
  | _ => []
  end.

Definition wifi_bundle : list (string * plist) :=
  [("PayloadDisplayName", PStr "Wi-Fi");
   ("PayloadContent",
    PList [PDict [("PayloadType", PStr "com.apple.wifi.managed");
                  ("PayloadUUID", PStr "0000");
                  ("AutoJoin", PBool true);
                  ("SSID_STR", PStr "corp");
                  ("EAPClientConfiguration", PDict [("AcceptEAPTypes", PList [PInt 25])]);
                  ("PayloadCertificate", PData "b'\x00'")];
           PStr "stray"])].

(** The number of occurrences of a character. *)
Fixpoint count_char (c : ascii) (s : string) : nat :=
  match s with
  | "" => 0
  | String a s' => (if Ascii.eqb a c then 1 else 0) + count_char c s'
  end.

(** The line feeds inside the two cells of a row. *)
Definition cell_breaks (row : setting) : nat :=
  count_char Re.newline (PyRepr.str row.1) + count_char Re.newline (PyRepr.str row.2).

(** The document of a file is read and is not empty. *)
Definition has_doc (f : json_file) : bool := truthy (default VNone (file_doc f)).

(** The counter of an entry agrees with its list of settings. *)
Definition count_ok (e : entry) : Prop := count e = length (settings e).

(** A policy whose type marker is a number. *)
Definition numbered_policy : list (string * value) :=
  [("@odata.type", VInt 7); ("displayName", VStr "Numbered")].

(** A catalogue policy whose type marker is a number. *)
Definition firewall_policy : list (string * value) :=
  [("@odata.type", VInt 7);
   ("settings",
    VList [VDict [("settingInstance",
      VDict [("settingDefinitionId", VStr "com.apple.alf_enablefirewall");
             ("choiceSettingValue",
              VDict [("value", VStr "com.apple.alf_enablefirewall_true");
                     ("children", VList [])])])]])].

(** A file that holds this policy, one that holds a JSON array, and one
    that could not be read. *)
Definition catalog_file : json_file :=
  {| file_name := "pol-sec-001-firewall.json";
     file_stem := "pol-sec-001-firewall";
     file_rel := "configurations/pol-sec-001-firewall.json";
     file_doc := Some (VDict firewall_policy);
     file_sidecar := None |}.

Definition array_file : json_file :=
  {| file_name := "pol-sec-002-array.json";
     file_stem := "pol-sec-002-array";
     file_rel := "configurations/pol-sec-002-array.json";
     file_doc := Some (VList [VInt 1]);
     file_sidecar := None |}.

Definition empty_file : json_file :=
  {| file_name := "pol-sec-003-empty.json";
     file_stem := "pol-sec-003-empty";
     file_rel := "configurations/pol-sec-003-empty.json";
     file_doc := None;
     file_sidecar := None |}.

(** * Properties *)

(** ** Sample evaluations *)

Example take_ex : PyStr.take 3 "abcdef" = "abc". Proof. reflexivity. Qed.
Example drop_last_ex : PyStr.drop_last 5 "k_true" = "k". Proof. reflexivity. Qed.
Example endswith_ex : PyStr.endswith "x_true" "_true" = true. Proof. reflexivity. Qed.
Example split_ex : PyStr.split "." "com.acme.x" = ["com"; "acme"; "x"].
Proof. reflexivity. Qed.
Example split_ex2 : PyStr.split "." "a..b." = ["a"; ""; "b"; ""].
Proof. reflexivity. Qed.
Example lower_ex : PyStr.lower "X_TRUE" = "x_true". Proof. reflexivity. Qed.
Example of_Z_ex : PyStr.of_Z (-120) = "-120" /\ PyStr.of_Z 0 = "0".
Proof. split; reflexivity. Qed.
Example strip_ex : PyStr.strip "  Script
 " = "Script". Proof. reflexivity. Qed.
Example hex2_ex : PyStr.hex2 "127" = "7f". Proof. reflexivity. Qed.
Example repr_ex :
  PyRepr.repr (VDict [("a", VList [VInt 1; VStr "x"; VNone])]) = "{'a': [1, 'x', None]}".
Proof. reflexivity. Qed.
Example json_dumps_ex :
  PyRepr.json_dumps (VDict [("a", VList [VInt 1; VBool true; VNone]); ("b", VStr "x\y")])
  = String.concat (String PyRepr.dquote "")
      ["{"; "a"; ": [1, true, null], "; "b"; ": "; "x\\y"; "}"].
Proof. reflexivity. Qed.
Example simplify_value_ex1 : simplify_value (VInt 24) = VStr "24".
Proof. reflexivity. Qed.
Example simplify_value_ex2 : simplify_value (VBool true) = VStr "True".
Proof. reflexivity. Qed.
Example simplify_value_ex3 : simplify_value (VList [VInt 1; VInt 2]) = VStr "[1, 2]".
Proof. reflexivity. Qed.
Example search_placeholder_ex1 : Re.search_placeholder "user={{mail}}" = true.
Proof. reflexivity. Qed.
Example search_placeholder_ex2 : Re.search_placeholder "{{mail}" = false.
Proof. reflexivity. Qed.
Example search_placeholder_ex3 : Re.search_placeholder "{{}}" = true.
Proof. reflexivity. Qed.
Example sdv_doc_ex1 :
  simplify_display_value (VStr "com.apple.mcx.filevault2_enable")
    (VStr "com.apple.mcx.filevault2_enable_0") = Ok (VStr "0").
Proof. reflexivity. Qed.
Example sdv_doc_ex2 :
  simplify_display_value (VStr "com.apple.systempolicy.control_EnableAssessment")
    (VStr "com.apple.systempolicy.control_EnableAssessment_true") = Ok (VStr "True").
Proof. reflexivity. Qed.
Example sdv_int_ex : simplify_display_value (VStr "k") (VInt 7) = Ok (VStr "7").
Proof. reflexivity. Qed.
Example sdv_nonstr_key_ex :
  simplify_display_value (VInt 5) (VStr "x") = Raise TypeError
  /\ simplify_display_value (VInt 5) (VStr "x_true") = Raise AttributeError
  /\ simplify_display_value (VInt 5) (VStr "{{x}}") = Ok (VStr "{{x}}").
Proof. repeat split; reflexivity. Qed.
Example walk_collection_ex :
  extract_settings_catalog
    [("settings",
      VList [VDict [("settingDefinitionId", VStr "com.acme.list");
                    ("simpleSettingCollectionValue",
                     VList [VDict [("value", VInt 1)]; VDict [("value", VInt 2)]])]])]
  = Ok [(VStr "com.acme.list[0]", VStr "1"); (VStr "com.acme.list[1]", VStr "2")].
Proof. reflexivity. Qed.
Example walk_nested_ex :
  extract_settings_catalog
    [("settings",
      VList [VDict [("settingInstance",
                     VDict [("settingDefinitionId", VStr "com.acme.group");
                            ("children",
                             VList [VDict [("settingDefinitionId", VStr "com.acme.x");
                                           ("choiceSettingValue",
                                            VDict [("value", VStr "com.acme.x_true")])]])])]])]
  = Ok [(VStr "com.acme.x", VStr "True")].
Proof. reflexivity. Qed.
Example walk_nonstr_id_ex :
  extract_settings_catalog
    [("settings",
      VList [VDict [("settingDefinitionId", VInt 5);
                    ("simpleSettingValue", VDict [("value", VStr "x")])]])]
  = Raise TypeError.
Proof. reflexivity. Qed.
Example classify_type_ex :
  classify_type "pol-sec-001-filevault.json" = "Policy"
  /\ classify_type "scr-app-100.sh" = "Script"
  /\ classify_type "cfg-net-002.mobileconfig" = "CustomConfig".
Proof. repeat split. Qed.

(** ** Facts about the string operations *)

Section StrFacts.
Import PyStr.

Lemma str_app_cons c (a b : string) : String c a +:+ b = String c (a +:+ b).
Proof. reflexivity. Qed.

Lemma str_app_nil_r (a : string) : a +:+ "" = a.
Proof. induction a as [|c a IH]; [done|]. by rewrite str_app_cons, IH. Qed.

Lemma str_app_assoc (a b c : string) : a +:+ (b +:+ c) = (a +:+ b) +:+ c.
Proof. induction a as [|x a IH]; [done|]. by rewrite !str_app_cons, IH. Qed.

Lemma len_app (a b : string) : len (a +:+ b) = len a + len b.
Proof.
  induction a as [|c a IH]; [done|].
  rewrite str_app_cons. unfold len in *. simpl. by rewrite IH.
Qed.

Lemma str_take_drop n (s : string) : take n s +:+ drop n s = s.
Proof.
  revert s. induction n as [|n IH]; intros [|c s]; try done.
  simpl. by rewrite str_app_cons, IH.
Qed.

Lemma len_take n (s : string) : len (take n s) = n `min` len s.
Proof.
  revert s. induction n as [|n IH]; intros [|c s]; try done.
  unfold len in *. simpl. by rewrite IH.
Qed.

Lemma take_app_len (a b : string) : take (len a) (a +:+ b) = a.
Proof.
  induction a as [|c a IH]; [by destruct b|].
  rewrite str_app_cons. unfold len in *. simpl. by rewrite IH.
Qed.

Lemma drop_app_len (a b : string) : drop (len a) (a +:+ b) = b.
Proof.
  induction a as [|c a IH]; [by destruct b|].
  rewrite str_app_cons. unfold len in *. simpl. by rewrite IH.
Qed.

Lemma str_drop_drop n m (s : string) : drop n (drop m s) = drop (m + n) s.
Proof.
  revert s. induction m as [|m IH]; intros s; [done|].
  destruct s as [|c s]; simpl; [by destruct n|]. apply IH.
Qed.

Lemma startswith_app (a b : string) : startswith (a +:+ b) a = true.
Proof.
  unfold startswith. induction a as [|c a IH]; [by destruct b|].
  rewrite str_app_cons. simpl. destruct (ascii_dec c c); [done|congruence].
Qed.

Lemma endswith_app (a b : string) : endswith (a +:+ b) b = true.
Proof.
  unfold endswith. rewrite len_app.
  replace (len a + len b - len b) with (len a) by lia.
  rewrite drop_app_len, String.eqb_refl.
  apply andb_true_iff; split; [|done]. apply Nat.leb_le. lia.
Qed.

Lemma endswith_inv (s suf : string) :
  endswith s suf = true → s = drop_last (len suf) s +:+ suf.
Proof.
  unfold endswith, drop_last. intros [_ H]%andb_true_iff.
  apply String.eqb_eq in H. rewrite <- H at 2. by rewrite str_take_drop.
Qed.

(** A string ending in [_false] does not end in [_true]. *)
Lemma endswith_false_not_true (s : string) :
  endswith s "_false" = true → endswith s "_true" = false.
Proof.
  unfold endswith. intros [Hlen H]%andb_true_iff.
  apply Nat.leb_le in Hlen. apply String.eqb_eq in H.
  change (len "_false") with 6 in *. change (len "_true") with 5.
  apply andb_false_iff; right. apply String.eqb_neq.
  replace (len s - 5) with ((len s - 6) + 1) by lia.
  rewrite <- str_drop_drop, H. done.
Qed.

End StrFacts.

(** ** ValueNormalizer *)

(** The pattern search finds exactly the placeholder tokens. *)
Lemma match_close_cons c s :
  Re.match_close (String c s)
  = String.prefix "}}" (String c s)
    || negb (Ascii.eqb c Re.newline) && Re.match_close s.
Proof. reflexivity. Qed.

Lemma match_close_app (b c : string) :
  PyRepr.contains_char Re.newline b = false →
  Re.match_close (b +:+ "}}" +:+ c) = true.
Proof.
  induction b as [|x b IH]; intros Hb.
  - destruct c; reflexivity.
  - simpl in Hb. apply orb_false_iff in Hb as [Hx Hb].
    rewrite str_app_cons, match_close_cons, Hx, IH by done.
    apply orb_true_r.
Qed.

Lemma prefix_2 (c d : ascii) (s : string) :
  String.prefix (String c (String d "")) s = true → s = String c (String d (PyStr.drop 2 s)).
Proof.
  destruct s as [|x [|y s]]; simpl; repeat case_match; try done; by intros; simplify_eq.
Qed.

Lemma match_close_inv (t : string) :
  Re.match_close t = true →
  ∃ b c, t = b +:+ "}}" +:+ c ∧ PyRepr.contains_char Re.newline b = false.
Proof.
  induction t as [|x t IH]; [done|].
  rewrite match_close_cons. intros [H|[Hx H]%andb_true_iff]%orb_true_iff.
  - exists "", (PyStr.drop 2 (String x t)). split; [|done].
    by apply prefix_2 in H.
  - destruct (IH H) as (b & c & -> & Hb). exists (String x b), c.
    split; [done|]. simpl. apply negb_true_iff in Hx. by rewrite Hx.
Qed.

Lemma search_placeholder_cons c s :
  Re.search_placeholder (String c s)
  = String.prefix "{{" (String c s) && Re.match_close (PyStr.drop 2 (String c s))
    || Re.search_placeholder s.
Proof. reflexivity. Qed.

Lemma search_placeholder_spec (v : string) :
  Re.search_placeholder v = true ↔ has_placeholder v.
Proof.
  split.
  - induction v as [|x v IH]; [done|].
    rewrite search_placeholder_cons.
    intros [[Hp Hc]%andb_true_iff|H]%orb_true_iff.
    + apply match_close_inv in Hc as (b & c & Hbc & Hb).
      exists "", b, c. split; [|done].
      apply prefix_2 in Hp. rewrite Hp at 1. by rewrite Hbc.
    + destruct (IH H) as (a & b & c & -> & Hb). by exists (String x a), b, c.
  - intros (a & b & c & -> & Hb). induction a as [|x a IH].
    + change (Re.search_placeholder (String "{" (String "{" (b +:+ "}}" +:+ c))) = true).
      rewrite search_placeholder_cons. apply orb_true_iff; left.
      apply andb_true_iff; split; [exact (startswith_app "{{" _)|].
      by apply match_close_app.
    + rewrite str_app_cons, search_placeholder_cons, IH. apply orb_true_r.
Qed.

(** The loop over the suffix table, for a string key. *)
Lemma boolean_suffix_loop_str (key val : string) :
  boolean_suffix_loop (VStr key) val (PyStr.lower val) BOOLEAN_SUFFIXES
  = Ok (if boolean_suffix_rule key val "_true" then Some "True"
        else if boolean_suffix_rule key val "_false" then Some "False"
        else None).
Proof.
  unfold BOOLEAN_SUFFIXES, boolean_suffix_loop, boolean_suffix_rule, str_method.
  cbv zeta. unfold mbind, result_bind.
  generalize (PyStr.drop_last (PyStr.len "_true") val) as p1.
  generalize (PyStr.drop_last (PyStr.len "_false") val) as p2.
  intros p2 p1.
  destruct (PyStr.endswith (PyStr.lower val) "_true"),
    (PyStr.endswith (PyStr.lower val) "_false"),
    (PyStr.startswith key (PyStr.last_segment "." p1)),
    (PyStr.endswith p1 (PyStr.last_segment "." key)),
    (String.eqb p1 key),
    (PyStr.startswith key (PyStr.last_segment "." p2)),
    (PyStr.endswith p2 (PyStr.last_segment "." key)),
    (String.eqb p2 key); reflexivity.
Qed.

Lemma boolean_suffix_rule_exclusive (key val : string) :
  boolean_suffix_rule key val "_false" = true →
  boolean_suffix_rule key val "_true" = false.
Proof.
  unfold boolean_suffix_rule. intros [H _]%andb_true_iff.
  by rewrite (endswith_false_not_true _ H).
Qed.

Lemma sdv_str_key (key : string) (raw : value) :
  ∃ s, simplify_display_value (VStr key) raw = Ok (VStr s).
Proof.
  assert (∃ s, simplify_value raw = VStr s) as [s Hs].
  { destruct raw as [| b | z | r | s | l | d]; simpl; eauto.
    destruct (120 <? PyStr.len s); eauto. }
  unfold simplify_display_value. rewrite Hs.
  destruct (Re.search_placeholder s); [eauto|].
  rewrite boolean_suffix_loop_str. simpl.
  repeat (match goal with
          | |- context [if ?b then _ else _] => destruct b
          end; simpl; eauto).
Qed.

Lemma simplify_value_short (v : string) :
  PyStr.len v ≤ 120 → simplify_value (VStr v) = VStr v.
Proof.
  intros Hlen. unfold simplify_value.
  by rewrite (proj2 (Nat.ltb_ge 120 (PyStr.len v))).
Qed.

Lemma simplify_value_long (v : string) :
  PyStr.len v > 120 → simplify_value (VStr v) = VStr (PyStr.take 117 v +:+ "...").
Proof.
  intros Hlen. unfold simplify_value.
  by rewrite (proj2 (Nat.ltb_lt 120 (PyStr.len v))) by lia.
Qed.

(** C2: a string of at most 120 characters is returned unchanged; a longer
    one becomes its first 117 characters followed by three dots, which has
    length exactly 120 and ends with the three dots. *)
Theorem simplify_value_string (v : string) :
  (PyStr.len v ≤ 120 → simplify_value (VStr v) = VStr v)
  ∧ (PyStr.len v > 120 →
     simplify_value (VStr v) = VStr (PyStr.take 117 v +:+ "...")
     ∧ PyStr.len (PyStr.take 117 v +:+ "...") = 120
     ∧ PyStr.endswith (PyStr.take 117 v +:+ "...") "..." = true).
Proof.
  split; intros Hlen.
  - by apply simplify_value_short.
  - split; [by apply simplify_value_long|]. split; [|apply endswith_app].
    rewrite len_app, len_take. change (PyStr.len "...") with 3. lia.
Qed.

Lemma simplify_value_string_witness :
  simplify_value (VStr "true") = VStr "true"
  ∧ PyStr.len (PyStr.take 117 long_text +:+ "...") = 120.
Proof.
  split.
  - apply (proj1 (simplify_value_string "true")). vm_compute. lia.
  - apply (proj2 (simplify_value_string long_text)). vm_compute. lia.
Defined.

(** C10: [simplify_value] returns a string for every document value, shape
    by shape, so the test for a non-string in [simplify_display_value] never
    succeeds, and [simplify_display_value] returns a string for every string
    key and every raw value. *)
Theorem simplify_value_always_str (raw : value) :
  (∃ s, simplify_value raw = VStr s)
  ∧ simplify_value VNone = VStr ""
  ∧ (∀ b : bool, simplify_value (VBool b) = VStr (if b then "True" else "False"))
  ∧ (∀ z, simplify_value (VInt z) = VStr (PyStr.of_Z z))
  ∧ (∀ r, simplify_value (VFloat r) = VStr r)
  ∧ (∀ s, simplify_value (VStr s) = VStr s
          ∨ simplify_value (VStr s) = VStr (PyStr.take 117 s +:+ "..."))
  ∧ (∀ l, simplify_value (VList l) = VStr (PyRepr.json_dumps (VList l)))
  ∧ (∀ d, simplify_value (VDict d) = VStr (PyRepr.json_dumps (VDict d)))
  ∧ (∀ key : string, ∃ s, simplify_display_value (VStr key) raw = Ok (VStr s)).
Proof.
  split.
  { destruct (sdv_str_key "" raw) as [s Hs]. unfold simplify_display_value in Hs.
    destruct (simplify_value raw); try discriminate. eauto. }
  repeat split; try done.
  - intros s. simpl. destruct (120 <? PyStr.len s); auto.
  - intros key. apply sdv_str_key.
Qed.

(** C3: the two sample calls map to [True] and [False]; and for every key
    and every normalised value without a placeholder token, when the
    boolean-suffix rule holds for [_true] (for [_false]) the result is the
    literal [True] ([False]). *)
Theorem sdv_boolean_suffix :
  simplify_display_value (VStr "com.acme.x") (VStr "com.acme.x_true") = Ok (VStr "True")
  ∧ simplify_display_value (VStr "com.acme.x") (VStr "com.acme.x_false") = Ok (VStr "False")
  ∧ ∀ (key : string) (raw : value) (val : string),
      simplify_value raw = VStr val →
      Re.search_placeholder val = false →
      (boolean_suffix_rule key val "_true" = true →
       simplify_display_value (VStr key) raw = Ok (VStr "True"))
      ∧ (boolean_suffix_rule key val "_false" = true →
         simplify_display_value (VStr key) raw = Ok (VStr "False")).
Proof.
  split; [reflexivity|]. split; [reflexivity|].
  intros key raw val Hval Hre. unfold simplify_display_value.
  rewrite Hval, Hre, boolean_suffix_loop_str.
  split; intros Hrule.
  - by rewrite Hrule.
  - by rewrite (boolean_suffix_rule_exclusive _ _ Hrule), Hrule.
Qed.

Lemma sdv_boolean_suffix_witness :
  simplify_display_value (VStr "control_EnableAssessment")
    (VStr "com.apple.systempolicy.control_EnableAssessment_TRUE") = Ok (VStr "True")
  ∧ simplify_display_value (VStr "a.b") (VStr "x.b_False") = Ok (VStr "False").
Proof.
  split.
  - apply (proj2 (proj2 sdv_boolean_suffix) "control_EnableAssessment"
             (VStr "com.apple.systempolicy.control_EnableAssessment_TRUE")
             "com.apple.systempolicy.control_EnableAssessment_TRUE");
      reflexivity.
  - apply (proj2 (proj2 sdv_boolean_suffix) "a.b" (VStr "x.b_False") "x.b_False");
      reflexivity.
Defined.

(** C5, as stated, fails on a long value: the value is truncated before the
    placeholder test, and the truncated text is what is returned. *)
Lemma sdv_placeholder_counterexample :
  has_placeholder ("{{mail}}" +:+ long_text)
  ∧ simplify_display_value (VStr "k") (VStr ("{{mail}}" +:+ long_text))
    ≠ Ok (VStr ("{{mail}}" +:+ long_text)).
Proof.
  split.
  - exists "", "mail", long_text. split; reflexivity.
  - vm_compute. discriminate.
Qed.

(** C5 (amended): whatever the key, a value of at most 120 characters that
    contains a placeholder token is returned unchanged; a longer value is
    returned in its truncated form when that form contains a placeholder
    token. *)
Theorem sdv_placeholder (key : value) (v : string) :
  (PyStr.len v ≤ 120 → has_placeholder v →
   simplify_display_value key (VStr v) = Ok (VStr v))
  ∧ (PyStr.len v > 120 → has_placeholder (PyStr.take 117 v +:+ "...") →
     simplify_display_value key (VStr v) = Ok (VStr (PyStr.take 117 v +:+ "..."))).
Proof.
  split; intros Hlen Hph%search_placeholder_spec.
  - unfold simplify_display_value.
    rewrite (simplify_value_short v Hlen). by rewrite Hph.
  - unfold simplify_display_value.
    rewrite (simplify_value_long v Hlen). by rewrite Hph.
Qed.

Lemma sdv_placeholder_witness :
  simplify_display_value (VInt 5) (VStr "user={{mail}}") = Ok (VStr "user={{mail}}")
  ∧ simplify_display_value (VStr "k") (VStr ("{{mail}}" +:+ long_text))
    = Ok (VStr (PyStr.take 117 ("{{mail}}" +:+ long_text) +:+ "...")).
Proof.
  split.
  - apply (proj1 (sdv_placeholder (VInt 5) "user={{mail}}")).
    + vm_compute. lia.
    + exists "user=", "mail", "". split; reflexivity.
  - apply (proj2 (sdv_placeholder (VStr "k") ("{{mail}}" +:+ long_text))).
    + vm_compute. lia.
    + exists "", "mail", (PyStr.drop 8 (PyStr.take 117 ("{{mail}}" +:+ long_text) +:+ "...")).
      split; reflexivity.
Defined.

(** C4, as stated, fails when the value holds a placeholder token (it is
    returned whole) and when the value is longer than 120 characters (it is
    truncated first). *)
Lemma sdv_strip_prefix_counterexample :
  (boolean_suffix_rule "k" ("k" +:+ "_" +:+ "{{mail}}") "_true" = false
   ∧ boolean_suffix_rule "k" ("k" +:+ "_" +:+ "{{mail}}") "_false" = false
   ∧ simplify_display_value (VStr "k") (VStr ("k" +:+ "_" +:+ "{{mail}}"))
     ≠ Ok (VStr "{{mail}}"))
  ∧ (boolean_suffix_rule "k" ("k" +:+ "_" +:+ long_text) "_true" = false
     ∧ boolean_suffix_rule "k" ("k" +:+ "_" +:+ long_text) "_false" = false
     ∧ simplify_display_value (VStr "k") (VStr ("k" +:+ "_" +:+ long_text))
       ≠ Ok (VStr long_text)).
Proof.
  repeat split; try reflexivity; vm_compute; discriminate.
Qed.

(** C4 (amended): when [key + "_" + suffix] has at most 120 characters,
    holds no placeholder token and does not match the boolean-suffix rule,
    the result is [suffix]. *)
Theorem sdv_strip_prefix (key suffix : string) :
  PyStr.len (key +:+ "_" +:+ suffix) ≤ 120 →
  ¬ has_placeholder (key +:+ "_" +:+ suffix) →
  boolean_suffix_rule key (key +:+ "_" +:+ suffix) "_true" = false →
  boolean_suffix_rule key (key +:+ "_" +:+ suffix) "_false" = false →
  simplify_display_value (VStr key) (VStr (key +:+ "_" +:+ suffix)) = Ok (VStr suffix).
Proof.
  intros Hlen Hph Ht Hf. unfold simplify_display_value.
  rewrite (simplify_value_short _ Hlen).
  destruct (Re.search_placeholder _) eqn:Hre.
  { by apply search_placeholder_spec in Hre. }
  rewrite boolean_suffix_loop_str, Ht, Hf. simpl.
  rewrite str_app_assoc, startswith_app.
  f_equal. f_equal.
  replace (PyStr.len key + 1) with (PyStr.len (key +:+ "_")).
  - apply drop_app_len.
  - by rewrite len_app.
Qed.

Lemma sdv_strip_prefix_witness :
  simplify_display_value (VStr "com.apple.mcx.filevault2_enable")
    (VStr ("com.apple.mcx.filevault2_enable" +:+ "_" +:+ "0")) = Ok (VStr "0").
Proof.
  apply (sdv_strip_prefix "com.apple.mcx.filevault2_enable" "0").
  - vm_compute. lia.
  - intros Hph%search_placeholder_spec. vm_compute in Hph. discriminate.
  - reflexivity.
  - reflexivity.
Defined.

(** ** TreeWalker *)

Lemma sdv_display (key : string) (raw : value) :
  simplify_display_value (VStr key) raw = Ok (display key raw).
Proof.
  unfold display. by destruct (sdv_str_key key raw) as [s ->].
Qed.

Lemma display_str (key : string) (raw : value) : ∃ s, display key raw = VStr s.
Proof.
  unfold display. destruct (sdv_str_key key raw) as [s ->]. eauto.
Qed.

Lemma walk_single_pairs sdid block out :
  walk_single (VStr sdid) block out = Ok (out ++ single_pairs sdid block).
Proof.
  destruct block as [| | | | | |b]; simpl; rewrite ?app_nil_r; try done.
  destruct (is_none (dict_get b "value")); [by rewrite app_nil_r|].
  by rewrite sdv_display.
Qed.

Lemma walk_collection_pairs sdid items : ∀ idx out,
  walk_collection (VStr sdid) idx items out
  = Ok (out ++ collection_pairs sdid idx items).
Proof.
  induction items as [|item rest IH]; intros idx out; simpl.
  - by rewrite app_nil_r.
  - assert (walk_collection_item (VStr sdid) idx item out
            = Ok (out ++ collection_pair sdid idx item)) as ->.
    { destruct item as [| | | | | |d]; simpl; rewrite ?app_nil_r; try done.
      destruct (is_none (dict_get d "value")); [by rewrite app_nil_r|].
      by rewrite sdv_display. }
    simpl. by rewrite IH, app_assoc.
Qed.

Lemma walk_carriers_pairs node out :
  match dict_get node "settingDefinitionId" with
  | VStr _ => true
  | sdid => negb (truthy sdid)
  end = true →
  walk_carriers node out = Ok (out ++ carrier_pairs node).
Proof.
  unfold walk_carriers, carrier_pairs. intros Hsd.
  destruct (dict_get node "settingDefinitionId") as [| | | |sdid| |];
    try (apply negb_true_iff in Hsd; rewrite Hsd; by rewrite app_nil_r).
  destruct (truthy (VStr sdid)); [|by rewrite app_nil_r].
  rewrite walk_single_pairs. simpl. rewrite walk_single_pairs. simpl.
  destruct (dict_get node "simpleSettingCollectionValue") as [| | | | |items|];
    rewrite ?app_nil_r, ?app_assoc; try done.
  by rewrite walk_collection_pairs, ?app_assoc.
Qed.

Lemma walk_dict d out :
  walk (VDict d) out = walk_carriers d out ≫= walk_values d.
Proof.
  cbn [walk]. destruct (walk_carriers d out) as [out1|e]; [|done]. simpl.
  revert out1. induction d as [|kv d IH]; intros out1; [done|].
  simpl. destruct (walk kv.2 out1); [|done]. simpl. apply IH.
Qed.

Lemma walk_list l out : walk (VList l) out = walk_items l out.
Proof.
  cbn [walk]. revert out. induction l as [|x l IH]; intros out; [done|].
  simpl. destruct (walk x out); [|done]. simpl. apply IH.
Qed.

(** The traversal, threading [out], appends exactly [walk_pairs]. *)
Lemma walk_walk_pairs (v : value) :
  string_ids v = true → ∀ out, walk v out = Ok (out ++ walk_pairs v).
Proof.
  induction v as [| | | | | l IH | d IH] using value_nested_ind;
    intros Hids out; try (simpl; by rewrite app_nil_r).
  - rewrite walk_list. cbn [walk_pairs string_ids] in *.
    revert out. induction IH as [|x l Hx _ IHl]; intros out; simpl.
    + by rewrite app_nil_r.
    + simpl in Hids. apply andb_true_iff in Hids as [Hx' Hl'].
      rewrite (Hx Hx'). simpl. by rewrite (IHl Hl'), app_assoc.
  - rewrite walk_dict. cbn [walk_pairs string_ids] in *.
    apply andb_true_iff in Hids as [Hsd Hch].
    rewrite (walk_carriers_pairs _ _ Hsd). simpl. rewrite app_assoc.
    generalize (out ++ carrier_pairs d) as out1. clear out Hsd.
    induction IH as [|kv d' Hkv _ IHd]; intros out; simpl.
    + by rewrite app_nil_r.
    + simpl in Hch. apply andb_true_iff in Hch as [Hkv' Hd'].
      rewrite (Hkv Hkv'). simpl. by rewrite (IHd Hd'), app_assoc.
Qed.

Lemma collection_pairs_elem sdid items : ∀ idx i d,
  items !! i = Some (VDict d) →
  is_none (dict_get d "value") = false →
  (VStr (sdid +:+ "[" +:+ PyStr.of_nat (idx + i) +:+ "]"),
   display sdid (dict_get d "value")) ∈ collection_pairs sdid idx items.
Proof.
  induction items as [|item rest IH]; intros idx i d Hi Hn.
  - by rewrite lookup_nil in Hi.
  - simpl. apply elem_of_app. destruct i as [|i]; simpl in Hi.
    + injection Hi as ->. left. simpl. rewrite Hn, Nat.add_0_r.
      apply list_elem_of_here.
    + right. replace (idx + S i) with (S idx + i) by lia. by apply IH.
Qed.

(** C6: a node with a non-empty string identifier, a choice-value mapping
    holding a non-null value and a collection list with at least one mapping
    entry holding a non-null value contributes the choice pair first, then
    one pair per such collection entry, keyed by the identifier followed by
    the entry's zero-based position in brackets: at least two pairs. *)
Theorem walk_choice_and_collection
    (node cb : list (string * value)) (sdid : string) (items : list value)
    (out : list setting) :
  dict_get node "settingDefinitionId" = VStr sdid →
  sdid ≠ "" →
  dict_get node "choiceSettingValue" = VDict cb →
  is_none (dict_get cb "value") = false →
  dict_get node "simpleSettingCollectionValue" = VList items →
  (∃ i d, items !! i = Some (VDict d) ∧ is_none (dict_get d "value") = false) →
  string_ids (VDict node) = true →
  walk (VDict node) out = Ok (out ++ walk_pairs (VDict node))
  ∧ extract_settings_catalog [("settings", VList [VDict node])]
    = Ok (walk_pairs (VDict node))
  ∧ walk_pairs (VDict node)
    = ((VStr sdid, display sdid (dict_get cb "value"))
       :: single_pairs sdid (dict_get node "simpleSettingValue")
       ++ collection_pairs sdid 0 items)
      ++ flat_map (fun kv => walk_pairs (snd kv)) node
  ∧ simplify_display_value (VStr sdid) (dict_get cb "value")
    = Ok (display sdid (dict_get cb "value"))
  ∧ (∀ i d, items !! i = Some (VDict d) →
       is_none (dict_get d "value") = false →
       simplify_display_value (VStr sdid) (dict_get d "value")
       = Ok (display sdid (dict_get d "value"))
       ∧ (VStr (sdid +:+ "[" +:+ PyStr.of_nat i +:+ "]"),
          display sdid (dict_get d "value")) ∈ collection_pairs sdid 0 items)
  ∧ 2 ≤ length ((VStr sdid, display sdid (dict_get cb "value"))
                :: single_pairs sdid (dict_get node "simpleSettingValue")
                ++ collection_pairs sdid 0 items).
Proof.
  intros Hsdid Hne Hcb Hcv Hitems (i0 & d0 & Hi0 & Hv0) Hids.
  split; [by apply walk_walk_pairs|]. split; [|split; [|split; [|split]]].
  - change (walk (VList [VDict node]) [] = Ok (walk_pairs (VDict node))).
    rewrite walk_list. cbn [walk_items]. rewrite (walk_walk_pairs _ Hids).
    done.
  - cbn [walk_pairs]. unfold carrier_pairs. rewrite Hsdid, Hcb, Hitems.
    assert (truthy (VStr sdid) = true) as ->.
    { simpl. apply negb_true_iff. by apply String.eqb_neq. }
    simpl. by rewrite Hcv.
  - apply sdv_display.
  - intros i d Hi Hn. split; [apply sdv_display|].
    by apply (collection_pairs_elem sdid items 0 i d).
  - pose proof (collection_pairs_elem sdid items 0 i0 d0 Hi0 Hv0) as Hin.
    simpl. rewrite length_app.
    destruct (collection_pairs sdid 0 items); [by apply elem_of_nil in Hin|].
    simpl. lia.
Qed.

Lemma walk_choice_and_collection_witness :
  walk (VDict sample_node) [] = Ok ([] ++ walk_pairs (VDict sample_node))
  ∧ 2 ≤ length (walk_pairs (VDict sample_node)).
Proof.
  split.
  - apply (walk_choice_and_collection sample_node
             [("value", VStr "com.acme.list_true"); ("children", VList [])]
             "com.acme.list"
             [VDict [("value", VInt 1)]; VStr "skipped"; VDict [("value", VInt 2)]] []);
      try reflexivity; try discriminate.
    exists 0, [("value", VInt 1)]. split; reflexivity.
  - vm_compute. lia.
Defined.

(** ** CompliancePolicyExtractor *)

Lemma compliance_actions_pairs key rule_name configs : ∀ cidx out,
  compliance_actions key rule_name cidx configs out
  = out ++ action_pairs key rule_name cidx configs.
Proof.
  induction configs as [|config rest IH]; intros cidx out; simpl.
  - by rewrite app_nil_r.
  - rewrite IH. destruct config; simpl; by rewrite ?app_nil_r, <- ?app_assoc.
Qed.

Lemma compliance_rule_pairs key idx rule out :
  rule_wf rule = true →
  compliance_rule key idx rule out = Ok (out ++ rule_pairs key idx rule).
Proof.
  destruct rule as [| | | | | |r]; try (simpl; by rewrite app_nil_r).
  intros Hwf. unfold compliance_rule, rule_pairs. fold (rule_name_of idx r).
  simpl in Hwf. cbv zeta.
  destruct (dict_get_default r "scheduledActionConfigurations" (VList []))
    as [| | | | |configs|]; try done.
  destruct configs as [|c cs].
  - simpl. by rewrite app_nil_r.
  - cbn [truthy py_len iter_values]. unfold mbind, result_bind.
    rewrite compliance_actions_pairs. by rewrite <- app_assoc.
Qed.

Lemma compliance_rules_pairs key rules : ∀ idx out,
  forallb rule_wf rules = true →
  compliance_rules key idx rules out = Ok (out ++ rules_pairs key idx rules).
Proof.
  induction rules as [|rule rest IH]; intros idx out Hwf; simpl.
  - by rewrite app_nil_r.
  - simpl in Hwf. apply andb_true_iff in Hwf as [Hr Hrest].
    rewrite (compliance_rule_pairs _ _ _ _ Hr). simpl.
    by rewrite (IH _ _ Hrest), app_assoc.
Qed.

Lemma compliance_fields_pairs items : ∀ out,
  rules_wf items →
  compliance_fields items out = Ok (out ++ flat_map field_pairs items).
Proof.
  induction items as [|[key val] rest IH]; intros out Hwf;
    cbn [compliance_fields flat_map].
  - by rewrite app_nil_r.
  - assert (Hrest : rules_wf rest).
    { intros rules Hin. apply Hwf. by apply list_elem_of_further. }
    unfold field_pairs. cbn [fst snd].
    destruct (bool_decide (key ∈ IGNORE_KEYS)); [by apply IH|].
    destruct (String.eqb_spec key "scheduledActionsForRule") as [->|Hne];
      cbn [andb].
    + destruct val as [| | | | |rules|]; cbn [is_list iter_values];
        try (rewrite IH by done; by rewrite <- app_assoc).
      rewrite compliance_rules_pairs by (apply Hwf, list_elem_of_here).
      unfold mbind, result_bind. rewrite IH by done. by rewrite <- app_assoc.
    + rewrite IH by done. destruct val; by rewrite <- app_assoc.
Qed.

(** C7, as stated, fails on a rule without action configurations: no
    summary pair with the count 0 is emitted for it. *)
Lemma extract_compliance_policy_counterexample :
  extract_compliance_policy empty_rule_doc = Ok []
  ∧ ∀ out, extract_compliance_policy empty_rule_doc = Ok out →
           (VStr "scheduledActionsForRule.r.actionCount", VStr (PyStr.of_nat 0)) ∉ out.
Proof.
  split; [reflexivity|]. intros out [= <-]. apply not_elem_of_nil.
Qed.

(** C7 (amended): on a document whose rules keep their action
    configurations in a list, the extractor returns the pairs of its fields
    in order; the rule list contributes the pairs of its rules in order; a
    rule with a non-empty list contributes the count of its action
    configurations and then one pair per action configuration, a rule with
    an empty list contributes nothing; the value of an action pair is
    [<actionType> (grace: <hours>h)]. *)
Theorem extract_compliance_policy_rules (json_doc : list (string * value)) :
  rules_wf json_doc →
  extract_compliance_policy json_doc = Ok (flat_map field_pairs json_doc)
  ∧ (∀ rules,
       field_pairs ("scheduledActionsForRule", VList rules)
       = rules_pairs "scheduledActionsForRule" 0 rules)
  ∧ (∀ key idx r configs,
       dict_get_default r "scheduledActionConfigurations" (VList []) = VList configs →
       rule_pairs key idx (VDict r)
       = match configs with
         | [] => []
         | _ =>
             (VStr (key +:+ "." +:+ rule_name_of idx r +:+ ".actionCount"),
              VStr (PyStr.of_nat (length configs)))
             :: action_pairs key (rule_name_of idx r) 0 configs
         end)
  ∧ (∀ key rule_name cidx c rest,
       action_pairs key rule_name cidx (VDict c :: rest)
       = (VStr (key +:+ "." +:+ rule_name +:+ ".action_" +:+ PyStr.of_nat cidx),
          VStr (PyRepr.str (dict_get_default c "actionType" (VStr "unknown"))
                +:+ " (grace: "
                +:+ PyRepr.str (dict_get_default c "gracePeriodHours" (VInt 0))
                +:+ "h)"))
         :: action_pairs key rule_name (S cidx) rest).
Proof.
  intros Hwf. split; [|split; [|split]].
  - unfold extract_compliance_policy. by rewrite compliance_fields_pairs.
  - done.
  - intros key idx r configs Hc. unfold rule_pairs. rewrite Hc. by destruct configs.
  - done.
Qed.

Lemma extract_compliance_policy_rules_witness :
  extract_compliance_policy block_rule_doc
  = Ok [(VStr "passwordRequired", VStr "True");
        (VStr "scheduledActionsForRule.PasswordRequired.actionCount", VStr "2");
        (VStr "scheduledActionsForRule.PasswordRequired.action_0",
         VStr "block (grace: 24h)");
        (VStr "scheduledActionsForRule.PasswordRequired.action_1",
         VStr "notification (grace: 0h)")].
Proof.
  assert (Hwf : rules_wf block_rule_doc).
  { intros rules Hin. unfold block_rule_doc in Hin.
    repeat (apply elem_of_cons in Hin as [Hin|Hin]; [try discriminate|]).
    - injection Hin as Hr. subst rules. reflexivity.
    - by apply elem_of_nil in Hin. }
  exact (proj1 (extract_compliance_policy_rules block_rule_doc Hwf)).
Defined.

(** ** ArtifactClassifier *)

Lemma len_3_inv (s : string) :
  PyStr.len s = 3 → ∃ a b c, s = String a (String b (String c "")).
Proof.
  destruct s as [|a [|b [|c [|d s]]]]; try done. eauto.
Qed.

Lemma match_ref_id_spec (name prefix : string) :
  match_ref_id name = Some prefix ↔ starts_with_ref_id name prefix.
Proof.
  split.
  - destruct name as [|a [|b [|c [|d [|e [|f [|g [|h [|i [|j [|k rest]]]]]]]]]]];
      try done.
    unfold match_ref_id.
    destruct (_ && _) eqn:Hc; [|done]. intros [= <-].
    do 10 (apply andb_true_iff in Hc as [Hc ?]).
    exists (String e (String f (String g ""))), (String i (String j (String k ""))), rest.
    repeat match goal with
           | H : Ascii.eqb _ _ = true |- _ => apply Ascii.eqb_eq in H; subst
           end.
    repeat split; try done; simpl;
      repeat match goal with H : _ = true |- _ => rewrite H; clear H end; done.
  - intros (mid & num & rest & -> & Hp & Hpl & Hm & Hml & Hn & Hnd).
    apply len_3_inv in Hp as (a & b & c & ->).
    apply len_3_inv in Hm as (e & f & g & ->).
    apply len_3_inv in Hn as (i & j & k & ->).
    simpl in Hpl, Hml, Hnd.
    rewrite !andb_true_r in *.
    apply andb_true_iff in Hpl as [? [? ?]%andb_true_iff].
    apply andb_true_iff in Hml as [? [? ?]%andb_true_iff].
    apply andb_true_iff in Hnd as [? [? ?]%andb_true_iff].
    change (match_ref_id (String a (String b (String c (String "-" (String e (String f
       (String g (String "-" (String i (String j (String k rest)))))))))))
       = Some (String a (String b (String c "")))).
    unfold match_ref_id.
    repeat match goal with H : _ = true |- _ => rewrite H; clear H end.
    reflexivity.
Qed.

Lemma mapping_lookup_elem (prefix cls : string) :
  (prefix, cls) ∈ mapping → mapping_lookup mapping prefix = Some cls.
Proof.
  unfold mapping. rewrite !elem_of_cons, elem_of_nil.
  intros H. repeat destruct H as [H|H]; try done; by simplify_eq.
Qed.

Lemma mapping_lookup_not_elem (prefix : string) :
  prefix ∉ mapping.*1 → mapping_lookup mapping prefix = None.
Proof.
  unfold mapping. intros H. simpl in H. rewrite !not_elem_of_cons in H.
  repeat (destruct H as [? H]). cbn [mapping_lookup].
  repeat match goal with
         | |- context [String.eqb ?a prefix] =>
             destruct (String.eqb_spec a prefix); [congruence|]
         end.
  done.
Qed.

(** C8, as stated, fails twice: a name outside the naming convention that is
    not a profile bundle is classified [Policy], not [Unknown]; and a
    profile bundle whose name follows the convention with an unmapped prefix
    is classified [Unknown], not [CustomConfig]. *)
Lemma classify_type_counterexample :
  ((¬ ∃ prefix cls, starts_with_ref_id "notes.json" prefix ∧ (prefix, cls) ∈ mapping)
   ∧ PyStr.endswith "notes.json" ".mobileconfig" = false
   ∧ classify_type "notes.json" ≠ "Unknown")
  ∧ ((¬ ∃ prefix cls, starts_with_ref_id "xyz-abc-001.mobileconfig" prefix
                      ∧ (prefix, cls) ∈ mapping)
     ∧ PyStr.endswith "xyz-abc-001.mobileconfig" ".mobileconfig" = true
     ∧ classify_type "xyz-abc-001.mobileconfig" ≠ "CustomConfig").
Proof.
  split; (split; [|split; [reflexivity|vm_compute; discriminate]]).
  - intros (prefix & cls & Hid%match_ref_id_spec & _). discriminate.
  - intros (prefix & cls & Hid%match_ref_id_spec & Hin).
    injection Hid as <-. apply mapping_lookup_elem in Hin. discriminate.
Qed.

(** C8 (amended): a name that starts with a reference id gets the
    classification mapped to the id's first three letters, and [Unknown]
    when the mapping has none, whatever its extension; any other name gets
    [CustomConfig] when it ends in [.mobileconfig] and [Policy] otherwise. *)
Theorem classify_type_cases (name : string) :
  (∀ prefix cls,
     starts_with_ref_id name prefix → (prefix, cls) ∈ mapping →
     classify_type name = cls)
  ∧ (∀ prefix,
       starts_with_ref_id name prefix → prefix ∉ mapping.*1 →
       classify_type name = "Unknown")
  ∧ ((∀ prefix, ¬ starts_with_ref_id name prefix) →
     classify_type name
     = if PyStr.endswith name ".mobileconfig" then "CustomConfig" else "Policy").
Proof.
  unfold classify_type. repeat split.
  - intros prefix cls Hid%match_ref_id_spec Hin%mapping_lookup_elem.
    by rewrite Hid, Hin.
  - intros prefix Hid%match_ref_id_spec Hin%mapping_lookup_not_elem.
    by rewrite Hid, Hin.
  - intros Hno. destruct (match_ref_id name) as [prefix|] eqn:Hid; [|done].
    by apply match_ref_id_spec, Hno in Hid.
Qed.

Lemma classify_type_cases_witness :
  classify_type "cmp-sec-001-compliance.json" = "Compliance"
  ∧ classify_type "xyz-abc-001.mobileconfig" = "Unknown"
  ∧ classify_type "wifi.mobileconfig" = "CustomConfig"
  ∧ classify_type "notes.json" = "Policy".
Proof.
  split; [|split; [|split]].
  - apply (proj1 (classify_type_cases "cmp-sec-001-compliance.json") "cmp" "Compliance").
    + apply match_ref_id_spec. reflexivity.
    + unfold mapping. do 2 apply list_elem_of_further. apply list_elem_of_here.
  - apply (proj1 (proj2 (classify_type_cases "xyz-abc-001.mobileconfig")) "xyz").
    + apply match_ref_id_spec. reflexivity.
    + unfold mapping. simpl. rewrite !not_elem_of_cons.
      repeat (split; [discriminate|]). apply not_elem_of_nil.
  - apply (proj2 (proj2 (classify_type_cases "wifi.mobileconfig"))).
    intros prefix Hid%match_ref_id_spec. discriminate.
  - apply (proj2 (proj2 (classify_type_cases "notes.json"))).
    intros prefix Hid%match_ref_id_spec. discriminate.
Defined.

(** ** ArtifactAggregator *)

Lemma dedup_loop_keep_first entries seen deduped :
  dedup_loop entries seen deduped = deduped ++ keep_first entries seen.
Proof.
  revert seen deduped.
  induction entries as [|e rest IH]; intros seen deduped; simpl.
  - by rewrite app_nil_r.
  - destruct (decide (identity e ∈ seen)); [apply IH|].
    rewrite IH. by rewrite <- app_assoc.
Qed.

Lemma keep_first_elem e entries seen :
  e ∈ keep_first entries seen
  ↔ ∃ pre post, entries = pre ++ (e :: post)
                ∧ (identity e ∉ seen) ∧ identity e ∉ (identity <$> pre).
Proof.
  revert seen. induction entries as [|x rest IH]; intros seen; simpl.
  - rewrite elem_of_nil. split; [done|]. by intros ([|??] & ? & ? & _).
  - destruct (decide (identity x ∈ seen)) as [Hx|Hx].
    + rewrite IH. split.
      * intros (pre & post & -> & Hs & Hp). exists (x :: pre), post.
        split; [done|]. split; [done|].
        rewrite fmap_cons, not_elem_of_cons. split; [congruence|done].
      * intros ([|y pre] & post & Heq & Hs & Hp); simplify_eq/=; [done|].
        apply not_elem_of_cons in Hp as [_ Hp]. eauto.
    + rewrite elem_of_cons, IH. split.
      * intros [->|(pre & post & -> & Hs & Hp)].
        { exists [], rest. split; [done|]. split; [done|]. apply not_elem_of_nil. }
        exists (x :: pre), post. split; [done|].
        apply not_elem_of_union in Hs as [Hne Hs]. split; [done|].
        rewrite fmap_cons, not_elem_of_cons. split; [|done].
        intros Heq. apply Hne. rewrite Heq. by apply elem_of_singleton.
      * intros ([|y pre] & post & Heq & Hs & Hp); simplify_eq/=; [by left|].
        apply not_elem_of_cons in Hp as [Hne Hp]. right.
        exists pre, post. split; [done|]. split; [|done].
        apply not_elem_of_union. split; [|done]. by apply not_elem_of_singleton.
Qed.

Lemma keep_first_NoDup entries seen :
  NoDup (identity <$> keep_first entries seen).
Proof.
  revert seen. induction entries as [|x rest IH]; intros seen; simpl.
  - constructor.
  - destruct (decide (identity x ∈ seen)); [apply IH|].
    rewrite fmap_cons. constructor; [|apply IH].
    intros (e & He & Hin)%list_elem_of_fmap.
    apply keep_first_elem in Hin as (_ & _ & _ & Hs & _).
    apply Hs, elem_of_union_l. rewrite He. by apply elem_of_singleton.
Qed.

Lemma sort_insert_perm x l : sort_insert x l ≡ₚ x :: l.
Proof.
  induction l as [|y l IH]; simpl; [done|].
  destruct (String.ltb (ref y) (ref x)); [|done].
  rewrite IH. apply Permutation_swap.
Qed.

Lemma sort_by_ref_perm l : sort_by_ref l ≡ₚ l.
Proof.
  induction l as [|x l IH]; simpl; [done|].
  by rewrite sort_insert_perm, IH.
Qed.

Lemma ltb_false_le (s1 s2 : string) : String.ltb s1 s2 = false → String.le s2 s1.
Proof.
  unfold String.le, String.ltb, String.leb.
  rewrite (String.compare_antisym s2 s1).
  destruct (String.compare s1 s2); simpl; done.
Qed.

Lemma ltb_true_le (s1 s2 : string) : String.ltb s1 s2 = true → String.le s1 s2.
Proof.
  unfold String.le, String.ltb, String.leb.
  destruct (String.compare s1 s2); simpl; done.
Qed.

Lemma sort_insert_sorted x l : Sorted ref_le l → Sorted ref_le (sort_insert x l).
Proof.
  induction 1 as [|y l Hl IH Hhd]; simpl.
  - by repeat constructor.
  - destruct (String.ltb (ref y) (ref x)) eqn:Hlt.
    + constructor; [done|].
      destruct Hhd as [|z l Hyz]; simpl.
      * constructor. by apply ltb_true_le.
      * destruct (String.ltb (ref z) (ref x)); constructor; [done|].
        by apply ltb_true_le.
    + constructor; [by constructor|]. constructor. by apply ltb_false_le.
Qed.

Lemma sort_by_ref_sorted l : Sorted ref_le (sort_by_ref l).
Proof.
  induction l as [|x l IH]; simpl; [constructor|]. by apply sort_insert_sorted.
Qed.




Lemma ref_le_trans : Transitive ref_le.
Proof. intros a b c. unfold ref_le. apply transitivity. Qed.

Lemma first_occurrence_exists e entries :
  e ∈ entries →
  ∃ e', first_occurrence e' entries ∧ identity e' = identity e.
Proof.
  induction entries as [|x rest IH]; [by intros ?%elem_of_nil|].
  intros He. destruct (decide (identity x = identity e)) as [Heq|Hne].
  - exists x. split; [|done]. exists [], rest. split; [done|apply not_elem_of_nil].
  - apply elem_of_cons in He as [->|He]; [done|].
    destruct (IH He) as (e' & (pre & post & -> & Hpre) & Hid).
    exists e'. split; [|done]. exists (x :: pre), post. split; [done|].
    rewrite fmap_cons, not_elem_of_cons. split; [congruence|done].
Qed.

Lemma merge_entries_elem entries e :
  e ∈ merge_entries entries ↔ first_occurrence e entries.
Proof.
  unfold merge_entries. rewrite dedup_loop_keep_first, app_nil_l.
  rewrite sort_by_ref_perm, keep_first_elem. unfold first_occurrence. split.
  - intros (pre & post & ? & _ & ?). eauto.
  - intros (pre & post & ? & ?). exists pre, post.
    split; [done|]. split; [apply not_elem_of_empty|done].
Qed.

Lemma merge_entries_NoDup entries : NoDup (identity <$> merge_entries entries).
Proof.
  unfold merge_entries. rewrite dedup_loop_keep_first, app_nil_l.
  rewrite sort_by_ref_perm. apply keep_first_NoDup.
Qed.

Lemma merge_entries_sorted entries : StronglySorted ref_le (merge_entries entries).
Proof.
  apply (@Sorted_StronglySorted _ _ ref_le_trans), sort_by_ref_sorted.
Qed.

(** C1: the merge step keeps exactly the first entry of every identity
    triple, returns the entries in ascending order of [ref], and the identity
    triples of the returned list are pairwise distinct; so are those of the
    list [build_entries] returns, whatever it read. *)
Theorem merge_entries_spec (entries : list entry) :
  (∀ e, e ∈ merge_entries entries ↔ first_occurrence e entries)
  ∧ (∀ e, e ∈ entries →
       ∃ e', e' ∈ merge_entries entries ∧ identity e' = identity e)
  ∧ NoDup (identity <$> merge_entries entries)
  ∧ StronglySorted ref_le (merge_entries entries)
  ∧ (∀ path_exists path_stem json_entries xml_manifests mc_entries,
       NoDup (identity <$> build_entries path_exists path_stem
                             json_entries xml_manifests mc_entries)
       ∧ StronglySorted ref_le (build_entries path_exists path_stem
                                  json_entries xml_manifests mc_entries)).
Proof.
  split; [apply merge_entries_elem|]. split; [|split; [|split]].
  - intros e He.
    destruct (first_occurrence_exists e entries He) as (e' & Hocc & Hid).
    exists e'. split; [by apply merge_entries_elem|done].
  - apply merge_entries_NoDup.
  - apply merge_entries_sorted.
  - intros. unfold build_entries.
    split; [apply merge_entries_NoDup|apply merge_entries_sorted].
Qed.

(** C9: the manifest loop appends an entry for a manifest of any type that
    its two skip tests let through.  A manifest of type [Policy] whose
    source file is a profile bundle contributes an entry of its own, of a
    type outside the manifest-only kinds and without settings; being
    produced first, it then displaces the entry of the bundle itself in the
    merge. *)
Theorem manifest_loop_stray_type :
  ∃ e, manifest_loop (λ _, true) (λ _, "pol-net-001")
         [("pol-net-001", Some stray_manifest)] [] = [e]
       ∧ type e = "Policy"
       ∧ (type e ∉ manifest_only_kinds)
       ∧ relpath e = "configurations/intune/pol-net-001.mobileconfig"
       ∧ PyStr.endswith (relpath e) ".mobileconfig" = true
       ∧ settings e = []
       ∧ build_entries (λ _, true) (λ _, "pol-net-001") []
           [("pol-net-001", Some stray_manifest)] [bundle_entry] = [e].
Proof.
  eexists. split; [reflexivity|]. simpl.
  split; [done|]. split; [|split; [done|split; [done|split; [done|]]]].
  - unfold manifest_only_kinds. rewrite !not_elem_of_cons.
    repeat (split; [discriminate|]). apply not_elem_of_nil.
  - vm_compute. reflexivity.
Qed.

(** * Further properties *)

(** ** Further properties: ValueNormalizer *)

Lemma len_lower (s : string) : PyStr.len (PyStr.lower s) = PyStr.len s.
Proof. induction s as [|c s IH]; [done|]. unfold PyStr.len in *. simpl. by rewrite IH. Qed.

Lemma len_drop_le n (s : string) : PyStr.len (PyStr.drop n s) ≤ PyStr.len s.
Proof.
  unfold PyStr.len. revert s.
  induction n as [|n IH]; intros [|c s]; simpl; try lia.
  specialize (IH s). lia.
Qed.

Lemma len_lstrip_le c (s : string) : PyStr.len (PyStr.lstrip c s) ≤ PyStr.len s.
Proof.
  unfold PyStr.len. induction s as [|a s IH]; simpl; [lia|].
  destruct (Ascii.eqb a c); simpl; lia.
Qed.

Lemma endswith_len (s suf : string) :
  PyStr.endswith s suf = true → PyStr.len suf ≤ PyStr.len s.
Proof. unfold PyStr.endswith. intros [H _]%andb_true_iff. by apply Nat.leb_le. Qed.

Lemma simplify_value_is_str (raw : value) : ∃ s, simplify_value raw = VStr s.
Proof.
  destruct raw as [| b | z | r | s | l | d]; simpl; eauto.
  destruct (120 <? PyStr.len s); eauto.
Qed.

Lemma simplify_value_str_len (v s : string) :
  simplify_value (VStr v) = VStr s → PyStr.len s ≤ 120.
Proof.
  destruct (decide (PyStr.len v ≤ 120)) as [Hle|Hgt].
  - rewrite simplify_value_short by done. intros [= <-]. done.
  - rewrite simplify_value_long by lia. intros H.
    replace s with (PyStr.take 117 v +:+ "...") by congruence.
    rewrite len_app, len_take. change (PyStr.len "...") with 3. lia.
Qed.

(** X1: on a string, [simplify_value] returns a string of at most 120
    characters, never longer than its argument, that a second application
    leaves unchanged. *)
Theorem simplify_value_str_bounded (s : string) :
  ∃ t, simplify_value (VStr s) = VStr t
       ∧ PyStr.len t ≤ 120
       ∧ PyStr.len t ≤ PyStr.len s
       ∧ simplify_value (VStr t) = VStr t.
Proof.
  destruct (decide (PyStr.len s ≤ 120)) as [Hle|Hgt].
  - exists s. rewrite simplify_value_short by done. done.
  - exists (PyStr.take 117 s +:+ "..."). rewrite simplify_value_long by lia.
    assert (PyStr.len (PyStr.take 117 s +:+ "...") = 120) as Hlen.
    { rewrite len_app, len_take. change (PyStr.len "...") with 3. lia. }
    split; [done|]. split; [lia|]. split; [lia|].
    apply simplify_value_short. lia.
Qed.

(** The result for a key that is not a string. *)
Lemma sdv_non_str_key (key raw : value) (s : string) :
  (∀ k, key ≠ VStr k) →
  simplify_value raw = VStr s →
  simplify_display_value key raw
  = if Re.search_placeholder s then Ok (VStr s)
    else if PyStr.endswith (PyStr.lower s) "_true"
            || PyStr.endswith (PyStr.lower s) "_false"
         then Raise AttributeError
         else Raise TypeError.
Proof.
  intros Hkey Hs. unfold simplify_display_value. rewrite Hs.
  destruct (Re.search_placeholder s); [done|].
  unfold BOOLEAN_SUFFIXES, boolean_suffix_loop.
  destruct key as [| | | |k| |]; try (by destruct (Hkey k));
    destruct (PyStr.endswith (PyStr.lower s) "_true"),
             (PyStr.endswith (PyStr.lower s) "_false"); reflexivity.
Qed.

(** X2: with a key that is not a string, [simplify_display_value] returns
    the normalised value when it holds a placeholder token; otherwise it
    raises: [AttributeError] when the value ends in a boolean suffix,
    [TypeError] when it does not. *)
Theorem sdv_non_string_key (key raw : value) (s : string) :
  (∀ k, key ≠ VStr k) →
  simplify_value raw = VStr s →
  (has_placeholder s → simplify_display_value key raw = Ok (VStr s))
  ∧ (¬ has_placeholder s →
     simplify_display_value key raw
     = if PyStr.endswith (PyStr.lower s) "_true"
          || PyStr.endswith (PyStr.lower s) "_false"
       then Raise AttributeError
       else Raise TypeError).
Proof.
  intros Hkey Hs. rewrite (sdv_non_str_key key raw s Hkey Hs).
  split; intros Hph.
  - apply search_placeholder_spec in Hph. by rewrite Hph.
  - destruct (Re.search_placeholder s) eqn:Hre; [|done].
    by apply search_placeholder_spec in Hre.
Qed.

Lemma sdv_non_string_key_witness :
  simplify_display_value (VInt 5) (VStr "{{serial}}") = Ok (VStr "{{serial}}")
  ∧ simplify_display_value VNone (VStr "x_TRUE") = Raise AttributeError.
Proof.
  split.
  - apply (proj1 (sdv_non_string_key (VInt 5) (VStr "{{serial}}") "{{serial}}"
                    ltac:(discriminate) eq_refl)).
    exists "", "serial", "". split; reflexivity.
  - apply (proj2 (sdv_non_string_key VNone (VStr "x_TRUE") "x_TRUE"
                    ltac:(discriminate) eq_refl)).
    intros Hph%search_placeholder_spec. discriminate.
Defined.

(** The shapes of the result for a string key. *)
Lemma sdv_str_key_cases (key : string) (raw : value) (s r : string) :
  simplify_value raw = VStr s →
  simplify_display_value (VStr key) raw = Ok (VStr r) →
  r = s
  ∨ (r = "True" ∧ PyStr.endswith (PyStr.lower s) "_true" = true)
  ∨ (r = "False" ∧ PyStr.endswith (PyStr.lower s) "_false" = true)
  ∨ r = PyStr.drop (PyStr.len key + 1) s
  ∨ r = PyStr.lstrip "_" (PyStr.drop (PyStr.len key) s).
Proof.
  intros Hs. unfold simplify_display_value. rewrite Hs.
  destruct (Re.search_placeholder s); [intros H; left; congruence|].
  rewrite boolean_suffix_loop_str.
  destruct (boolean_suffix_rule key s "_true") eqn:Ht.
  { intros H. right; left. apply andb_true_iff in Ht as [Ht _].
    split; [|done]. cbn in H. congruence. }
  destruct (boolean_suffix_rule key s "_false") eqn:Hf.
  { intros H. right; right; left. apply andb_true_iff in Hf as [Hf _].
    split; [|done]. cbn in H. congruence. }
  unfold mbind, result_bind, add_str, py_len, str_arg.
  destruct (PyStr.startswith s (key +:+ "_")).
  { intros H. do 3 right. left. congruence. }
  destruct (PyStr.startswith s key); [|intros H; left; congruence].
  destruct (truthy (VStr (PyStr.lstrip "_" (PyStr.drop (PyStr.len key) s)))).
  - intros H. do 4 right. congruence.
  - intros H. left. congruence.
Qed.

(** X3: with a string key, the string returned is never longer than the
    normalised value; for a string value it has at most 120 characters. *)
Theorem sdv_never_longer (key : string) (raw : value) (s r : string) :
  simplify_value raw = VStr s →
  simplify_display_value (VStr key) raw = Ok (VStr r) →
  PyStr.len r ≤ PyStr.len s
  ∧ (∀ v, raw = VStr v → PyStr.len r ≤ 120).
Proof.
  intros Hs Hr.
  assert (Hlen : PyStr.len r ≤ PyStr.len s).
  { destruct (sdv_str_key_cases key raw s r Hs Hr)
      as [->|[[-> He]|[[-> He]|[->| ->]]]].
    - done.
    - apply endswith_len in He. rewrite len_lower in He.
      change (PyStr.len "_true") with 5 in He. change (PyStr.len "True") with 4. lia.
    - apply endswith_len in He. rewrite len_lower in He.
      change (PyStr.len "_false") with 6 in He. change (PyStr.len "False") with 5. lia.
    - apply len_drop_le.
    - etrans; [apply len_lstrip_le|apply len_drop_le]. }
  split; [done|]. intros v ->.
  pose proof (simplify_value_str_len v s Hs). lia.
Qed.

Lemma sdv_never_longer_witness :
  PyStr.len "0" ≤ PyStr.len "com.apple.mcx.filevault2_enable_0".
Proof.
  apply (sdv_never_longer "com.apple.mcx.filevault2_enable"
           (VStr "com.apple.mcx.filevault2_enable_0")
           "com.apple.mcx.filevault2_enable_0" "0"); reflexivity.
Defined.

Lemma prefix_app_inv (a b s : string) :
  String.prefix (a +:+ b) s = true → String.prefix a s = true.
Proof.
  revert s. induction a as [|c a IH]; intros s; [by destruct s|].
  rewrite str_app_cons. destruct s as [|x s]; simpl; [done|].
  destruct (ascii_dec c x); [apply IH|done].
Qed.

Lemma startswith_app_cancel (a t b : string) :
  PyStr.startswith (a +:+ t) (a +:+ b) = PyStr.startswith t b.
Proof.
  unfold PyStr.startswith. induction a as [|c a IH]; [done|].
  rewrite !str_app_cons. simpl. destruct (ascii_dec c c); [done|congruence].
Qed.

Lemma lstrip_no_lead (c : ascii) (t : string) :
  PyStr.startswith t (String c "") = false → PyStr.lstrip c t = t.
Proof.
  destruct t as [|x t]; [done|]. unfold PyStr.startswith. simpl.
  destruct (ascii_dec c x) as [->|Hne].
  - by destruct t.
  - intros _. destruct (Ascii.eqb_spec x c); [congruence|done].
Qed.

(** X4: a normalised value that does not start with the key, holds no
    placeholder token and does not match the boolean-suffix rule is
    returned as it is. *)
Theorem sdv_unrelated_value (key : string) (raw : value) (s : string) :
  simplify_value raw = VStr s →
  ¬ has_placeholder s →
  boolean_suffix_rule key s "_true" = false →
  boolean_suffix_rule key s "_false" = false →
  PyStr.startswith s key = false →
  simplify_display_value (VStr key) raw = Ok (VStr s).
Proof.
  intros Hs Hph Ht Hf Hkey. unfold simplify_display_value. rewrite Hs.
  destruct (Re.search_placeholder s) eqn:Hre.
  { by apply search_placeholder_spec in Hre. }
  rewrite boolean_suffix_loop_str, Ht, Hf.
  unfold mbind, result_bind, add_str, py_len, str_arg.
  destruct (PyStr.startswith s (key +:+ "_")) eqn:Hk.
  - apply prefix_app_inv in Hk. unfold PyStr.startswith in Hkey. congruence.
  - by rewrite Hkey.
Qed.

Lemma sdv_unrelated_value_witness :
  simplify_display_value (VStr "com.acme.x") (VStr "enabled") = Ok (VStr "enabled").
Proof.
  apply (sdv_unrelated_value "com.acme.x" (VStr "enabled") "enabled");
    try reflexivity.
  intros Hph%search_placeholder_spec. discriminate.
Defined.

(** X5: when the normalised value is the key followed by a rest that does
    not begin with an underscore (no placeholder token, no boolean suffix),
    the result is that rest, or the whole value when the rest is empty: the
    underscore stripping of the last branch never removes anything. *)
Theorem sdv_key_then_rest (key rest : string) (raw : value) :
  simplify_value raw = VStr (key +:+ rest) →
  ¬ has_placeholder (key +:+ rest) →
  boolean_suffix_rule key (key +:+ rest) "_true" = false →
  boolean_suffix_rule key (key +:+ rest) "_false" = false →
  PyStr.startswith rest "_" = false →
  simplify_display_value (VStr key) raw
  = Ok (VStr (if String.eqb rest "" then key +:+ rest else rest)).
Proof.
  intros Hs Hph Ht Hf Hrest. unfold simplify_display_value. rewrite Hs.
  destruct (Re.search_placeholder _) eqn:Hre.
  { by apply search_placeholder_spec in Hre. }
  rewrite boolean_suffix_loop_str, Ht, Hf.
  unfold mbind, result_bind, add_str, py_len, str_arg.
  rewrite startswith_app_cancel, Hrest, startswith_app, drop_app_len.
  rewrite (lstrip_no_lead "_" rest Hrest). simpl.
  by destruct (String.eqb rest "").
Qed.

Lemma sdv_key_then_rest_witness :
  simplify_display_value (VStr "com.acme") (VStr "com.acme.wifi") = Ok (VStr ".wifi")
  ∧ simplify_display_value (VStr "com.acme") (VStr "com.acme") = Ok (VStr "com.acme").
Proof.
  split.
  - apply (sdv_key_then_rest "com.acme" ".wifi" (VStr "com.acme.wifi"));
      try reflexivity.
    intros Hph%search_placeholder_spec. discriminate.
  - apply (sdv_key_then_rest "com.acme" "" (VStr "com.acme")); try reflexivity.
    intros Hph%search_placeholder_spec. discriminate.
Defined.

(** ** Further properties: TreeWalker *)

Lemma single_pairs_str sdid block : Forall str_pair (single_pairs sdid block).
Proof.
  destruct block as [| | | | | |b]; simpl; try by constructor.
  destruct (is_none _); [by constructor|].
  destruct (display_str sdid (dict_get b "value")) as [s ->].
  repeat constructor. by eexists _, _.
Qed.

Lemma collection_pairs_str sdid items : ∀ idx,
  Forall str_pair (collection_pairs sdid idx items).
Proof.
  induction items as [|item rest IH]; intros idx; simpl; [by constructor|].
  apply Forall_app. split; [|apply IH].
  destruct item as [| | | | | |d]; simpl; try by constructor.
  destruct (is_none _); [by constructor|].
  destruct (display_str sdid (dict_get d "value")) as [s ->].
  repeat constructor. by eexists _, _.
Qed.

Lemma carrier_pairs_str node : Forall str_pair (carrier_pairs node).
Proof.
  unfold carrier_pairs.
  destruct (dict_get node "settingDefinitionId"); try by constructor.
  destruct (truthy _); [|by constructor].
  rewrite !Forall_app. split; [apply single_pairs_str|].
  split; [apply single_pairs_str|].
  destruct (dict_get node "simpleSettingCollectionValue"); try by constructor.
  apply collection_pairs_str.
Qed.

Lemma walk_pairs_str (v : value) : Forall str_pair (walk_pairs v).
Proof.
  induction v as [| | | | | l IH | d IH] using value_nested_ind;
    try by constructor.
  - simpl. induction IH as [|x l Hx _ IHl]; simpl; [by constructor|].
    apply Forall_app. by split.
  - cbn [walk_pairs]. apply Forall_app. split; [apply carrier_pairs_str|].
    induction IH as [|kv d' Hkv _ IHd]; simpl; [by constructor|].
    apply Forall_app. by split.
Qed.

(** X6: on a document whose setting identifiers are strings, the
    settings-catalog extraction does not raise and every pair it returns is
    a pair of strings. *)
Theorem extract_settings_catalog_str_pairs (json_doc : list (string * value)) :
  string_ids (dict_get_default json_doc "settings" (VList [])) = true →
  ∃ out, extract_settings_catalog json_doc = Ok out ∧ Forall str_pair out.
Proof.
  intros Hids. unfold extract_settings_catalog.
  rewrite (walk_walk_pairs _ Hids). eexists. split; [done|].
  apply walk_pairs_str.
Qed.

Lemma extract_settings_catalog_str_pairs_witness :
  ∃ out, extract_settings_catalog [("settings", VList [VDict sample_node])] = Ok out
         ∧ Forall str_pair out.
Proof.
  apply (extract_settings_catalog_str_pairs [("settings", VList [VDict sample_node])]).
  reflexivity.
Defined.

Lemma walk_items_app l1 l2 out :
  walk_items (l1 ++ l2) out = walk_items l1 out ≫= walk_items l2.
Proof.
  revert out. induction l1 as [|x l1 IH]; intros out; simpl; [done|].
  destruct (walk x out) as [out'|e]; simpl; [apply IH|done].
Qed.

(** X7: walking a sequence is walking its first part and then its second
    part on the output so far; an exception of the first part stops the
    walk. *)
Theorem walk_list_app (l1 l2 : list value) (out : list setting) :
  walk (VList (l1 ++ l2)) out = walk (VList l1) out ≫= walk (VList l2).
Proof.
  rewrite !walk_list, walk_items_app.
  destruct (walk_items l1 out); unfold mbind, result_bind; [|done].
  symmetry. apply walk_list.
Qed.

Lemma walk_single_raises (sdid : value) (cb : list (string * value)) out :
  (∀ k, sdid ≠ VStr k) →
  is_none (dict_get cb "value") = false →
  (∀ s, simplify_value (dict_get cb "value") = VStr s → ¬ has_placeholder s) →
  ∃ e, walk_single sdid (VDict cb) out = Raise e.
Proof.
  intros Hsd Hn Hph. unfold walk_single. cbv zeta. rewrite Hn.
  destruct (simplify_value_is_str (dict_get cb "value")) as [s Hs].
  rewrite (sdv_non_str_key sdid _ s Hsd Hs).
  destruct (Re.search_placeholder s) eqn:Hre.
  { by apply search_placeholder_spec, (Hph s Hs) in Hre. }
  destruct (_ || _); by eexists.
Qed.

(** X8: a node whose identifier is truthy but not a string, with a choice
    value that is not null and holds no placeholder token, makes the walk
    raise, wherever the node stands in the sequence walked. *)
Theorem walk_non_string_id_raises (node cb : list (string * value))
    (pre post : list value) (out : list setting) :
  (∀ k, dict_get node "settingDefinitionId" ≠ VStr k) →
  truthy (dict_get node "settingDefinitionId") = true →
  dict_get node "choiceSettingValue" = VDict cb →
  is_none (dict_get cb "value") = false →
  (∀ s, simplify_value (dict_get cb "value") = VStr s → ¬ has_placeholder s) →
  ∃ e, walk (VList (pre ++ VDict node :: post)) out = Raise e.
Proof.
  intros Hsd Htr Hcb Hn Hph. rewrite walk_list, walk_items_app.
  destruct (walk_items pre out) as [out1|e]; [|by eexists].
  unfold mbind, result_bind. cbn [walk_items]. rewrite walk_dict.
  unfold walk_carriers. rewrite Htr, Hcb.
  destruct (walk_single_raises _ cb out1 Hsd Hn Hph) as [e ->].
  by eexists.
Qed.

Lemma walk_non_string_id_raises_witness :
  ∃ e, walk (VList ([VDict sample_node]
                    ++ VDict [("settingDefinitionId", VInt 7);
                              ("choiceSettingValue", VDict [("value", VStr "on")])]
                       :: [VNone])) [] = Raise e.
Proof.
  apply (walk_non_string_id_raises
           [("settingDefinitionId", VInt 7);
            ("choiceSettingValue", VDict [("value", VStr "on")])]
           [("value", VStr "on")]); try reflexivity; try discriminate.
  intros s [= <-] Hph%search_placeholder_spec. discriminate.
Defined.

(** ** Further properties: CompliancePolicyExtractor *)

Lemma flat_fields_pairs (doc : list (string * value)) :
  (∀ rules, ("scheduledActionsForRule", VList rules) ∉ doc) →
  flat_map field_pairs doc
  = map (λ kv, (VStr kv.1, simplify_value kv.2))
        (filter (λ kv, kv.1 ∉ IGNORE_KEYS) doc).
Proof.
  induction doc as [|[k v] doc IH]; intros Hno; [done|].
  assert (Hdoc : ∀ rules, ("scheduledActionsForRule", VList rules) ∉ doc).
  { intros rules Hin. apply (Hno rules). by apply list_elem_of_further. }
  cbn [flat_map]. rewrite filter_cons, (IH Hdoc). unfold field_pairs. cbn [fst snd].
  destruct (decide (k ∉ IGNORE_KEYS)) as [Hk|Hk].
  - rewrite bool_decide_eq_false_2 by done.
    destruct v as [| | | | |rules|]; try done.
    destruct (String.eqb_spec k "scheduledActionsForRule") as [->|]; [|done].
    destruct (Hno rules). apply list_elem_of_here.
  - rewrite bool_decide_eq_true_2; [done|]. by apply dec_stable.
Qed.

(** X9: on a document without a rule list, the compliance extraction does
    not raise and returns one pair per field that is not a metadata field,
    in document order: the field name and its normalised value. *)
Theorem extract_compliance_policy_flat (json_doc : list (string * value)) :
  (∀ rules, ("scheduledActionsForRule", VList rules) ∉ json_doc) →
  extract_compliance_policy json_doc
  = Ok (map (λ kv, (VStr kv.1, simplify_value kv.2))
          (filter (λ kv, kv.1 ∉ IGNORE_KEYS) json_doc)).
Proof.
  intros Hno. unfold extract_compliance_policy.
  rewrite compliance_fields_pairs.
  - by rewrite flat_fields_pairs.
  - intros rules Hin. by destruct (Hno rules).
Qed.

Lemma extract_compliance_policy_flat_witness :
  extract_compliance_policy
    [("@odata.type", VStr "#microsoft.graph.macOSCompliancePolicy");
     ("passwordRequired", VBool true);
     ("id", VStr "0000");
     ("passwordMinimumLength", VInt 8);
     ("scheduledActionsForRule", VNone)]
  = Ok [(VStr "passwordRequired", VStr "True");
        (VStr "passwordMinimumLength", VStr "8");
        (VStr "scheduledActionsForRule", VStr "")].
Proof.
  apply (extract_compliance_policy_flat
           [("@odata.type", VStr "#microsoft.graph.macOSCompliancePolicy");
            ("passwordRequired", VBool true);
            ("id", VStr "0000");
            ("passwordMinimumLength", VInt 8);
            ("scheduledActionsForRule", VNone)]).
  intros rules Hin.
  repeat (apply elem_of_cons in Hin as [Hin|Hin]; [discriminate|]).
  by apply elem_of_nil in Hin.
Defined.

Lemma compliance_fields_app (a b : list (string * value)) (out : list setting) :
  compliance_fields (a ++ b) out = compliance_fields a out ≫= compliance_fields b.
Proof.
  revert out. induction a as [|[k v] a IH]; intros out; [done|].
  cbn [app compliance_fields].
  destruct (bool_decide _); [apply IH|].
  destruct (_ && _); [|apply IH].
  destruct (compliance_rules k 0 (iter_values v) out); [apply IH|done].
Qed.

Lemma compliance_rules_app key (a b : list value) idx (out : list setting) :
  compliance_rules key idx (a ++ b) out
  = compliance_rules key idx a out ≫= compliance_rules key (idx + length a) b.
Proof.
  revert idx out. induction a as [|r a IH]; intros idx out.
  - simpl. by rewrite Nat.add_0_r.
  - cbn [app compliance_rules length].
    destruct (compliance_rule key idx r out) as [out'|]; [|done].
    unfold mbind at 1 3, result_bind at 1 3.
    rewrite IH. by replace (S idx + length a) with (idx + S (length a)) by lia.
Qed.

(** X10: a rule whose action configurations are a non-zero number (or
    [True]) makes the compliance extraction raise [TypeError], when the
    fields and rules before it are well formed. *)
Theorem extract_compliance_policy_number_raises
    (pre post : list (string * value)) (rules1 rules2 : list value)
    (r : list (string * value)) :
  rules_wf pre →
  forallb rule_wf rules1 = true →
  is_number (dict_get_default r "scheduledActionConfigurations" (VList [])) = true →
  truthy (dict_get_default r "scheduledActionConfigurations" (VList [])) = true →
  extract_compliance_policy
    (pre ++ ("scheduledActionsForRule", VList (rules1 ++ VDict r :: rules2)) :: post)
  = Raise TypeError.
Proof.
  intros Hpre Hr1 Hnum Htr. unfold extract_compliance_policy.
  rewrite compliance_fields_app, (compliance_fields_pairs pre [] Hpre).
  unfold mbind at 1, result_bind at 1.
  cbn [compliance_fields]. rewrite bool_decide_eq_false_2.
  2:{ unfold IGNORE_KEYS. rewrite !not_elem_of_cons.
      repeat (split; [discriminate|]). apply not_elem_of_nil. }
  cbn [String.eqb is_list andb iter_values].
  replace (("scheduledActionsForRule" =? "scheduledActionsForRule")%string)
    with true by reflexivity.
  cbn [andb]. rewrite compliance_rules_app.
  rewrite (compliance_rules_pairs _ rules1 0 _ Hr1).
  unfold mbind at 2, result_bind at 2. cbn [compliance_rules].
  assert (∀ idx out, compliance_rule "scheduledActionsForRule" idx (VDict r) out
                     = Raise TypeError) as ->; [|done].
  intros idx out. unfold compliance_rule. cbv zeta. rewrite Htr.
  by destruct (dict_get_default r "scheduledActionConfigurations" (VList [])).
Qed.

Lemma extract_compliance_policy_number_raises_witness :
  extract_compliance_policy
    ([("passwordRequired", VBool true)]
     ++ ("scheduledActionsForRule",
         VList ([VStr "not a rule"]
                ++ VDict [("ruleName", VStr "r");
                          ("scheduledActionConfigurations", VInt 3)] :: []))
        :: [])
  = Raise TypeError.
Proof.
  apply (extract_compliance_policy_number_raises
           [("passwordRequired", VBool true)] [] [VStr "not a rule"] []
           [("ruleName", VStr "r"); ("scheduledActionConfigurations", VInt 3)]);
    try reflexivity.
  intros rules Hin.
  repeat (apply elem_of_cons in Hin as [Hin|Hin]; [discriminate|]).
  by apply elem_of_nil in Hin.
Defined.

Lemma action_pairs_length key rule_name configs : ∀ cidx,
  length (action_pairs key rule_name cidx configs)
  = length (List.filter is_mapping configs).
Proof.
  induction configs as [|c cs IH]; intros cidx; [done|].
  cbn [action_pairs List.filter]. rewrite length_app, IH.
  by destruct c.
Qed.

(** X11: a rule with a non-empty list of action configurations yields the
    summary pair with the length of the list, followed by one action pair
    per list entry that is a mapping: the announced count is an upper bound
    of the action pairs that follow. *)
Theorem compliance_rule_count (key : string) (idx : nat)
    (r : list (string * value)) (configs : list value) (out : list setting) :
  dict_get_default r "scheduledActionConfigurations" (VList []) = VList configs →
  configs ≠ [] →
  ∃ actions,
    compliance_rule key idx (VDict r) out
    = Ok (out ++ (VStr (key +:+ "." +:+ rule_name_of idx r +:+ ".actionCount"),
                  VStr (PyStr.of_nat (length configs))) :: actions)
    ∧ length actions = length (List.filter is_mapping configs)
    ∧ length actions ≤ length configs.
Proof.
  intros Hc Hne. exists (action_pairs key (rule_name_of idx r) 0 configs).
  split; [|split].
  - rewrite compliance_rule_pairs by (simpl; by rewrite Hc).
    unfold rule_pairs. rewrite Hc. by destruct configs.
  - apply action_pairs_length.
  - rewrite action_pairs_length. apply List.filter_length_le.
Qed.

Lemma compliance_rule_count_witness :
  ∃ actions,
    compliance_rule "scheduledActionsForRule" 0
      (VDict [("scheduledActionConfigurations",
               VList [VDict [("actionType", VStr "block")]; VStr "stray"])]) []
    = Ok ([] ++ (VStr ("scheduledActionsForRule" +:+ "."
                       +:+ rule_name_of 0
                             [("scheduledActionConfigurations",
                               VList [VDict [("actionType", VStr "block")]; VStr "stray"])]
                       +:+ ".actionCount"),
                 VStr (PyStr.of_nat 2)) :: actions)
    ∧ length actions = 1
    ∧ length actions ≤ 2.
Proof.
  apply (compliance_rule_count "scheduledActionsForRule" 0
           [("scheduledActionConfigurations",
             VList [VDict [("actionType", VStr "block")]; VStr "stray"])]
           [VDict [("actionType", VStr "block")]; VStr "stray"] []).
  - reflexivity.
  - discriminate.
Defined.

Lemma rule_key_kept (x : string) (v : value) :
  key_kept (VStr ("scheduledActionsForRule" +:+ x), v).
Proof.
  eexists. split; [done|].
  change ("scheduledActionsForRule" +:+ x)
    with (String "s" ("cheduledActionsForRule" +:+ x)).
  unfold IGNORE_KEYS. rewrite !not_elem_of_cons.
  repeat (split; [discriminate|]). apply not_elem_of_nil.
Qed.

Lemma compliance_actions_kept rule_name configs : ∀ cidx out,
  Forall key_kept out →
  Forall key_kept
    (compliance_actions "scheduledActionsForRule" rule_name cidx configs out).
Proof.
  induction configs as [|c cs IH]; intros cidx out Hout; [done|].
  cbn [compliance_actions]. apply IH. destruct c; try done.
  apply Forall_app. split; [done|]. repeat constructor. apply rule_key_kept.
Qed.

Lemma compliance_rules_kept rules : ∀ idx out out',
  compliance_rules "scheduledActionsForRule" idx rules out = Ok out' →
  Forall key_kept out → Forall key_kept out'.
Proof.
  induction rules as [|rule rest IH]; intros idx out out'.
  - by intros [= <-].
  - cbn [compliance_rules].
    destruct (compliance_rule _ idx rule out) as [out1|] eqn:Hr; [|done].
    unfold mbind, result_bind. intros Hrest Hout. apply (IH _ _ _ Hrest).
    revert Hr. unfold compliance_rule. destruct rule as [| | | | | |r]; try congruence.
    cbv zeta. destruct (truthy _); [|congruence].
    destruct (py_len _); [|done]. unfold mbind, result_bind. intros [= <-].
    apply compliance_actions_kept, Forall_app. split; [done|].
    repeat constructor. apply rule_key_kept.
Qed.

Lemma compliance_fields_kept items : ∀ out out',
  compliance_fields items out = Ok out' →
  Forall key_kept out → Forall key_kept out'.
Proof.
  induction items as [|[k v] rest IH]; intros out out'.
  - by intros [= <-].
  - cbn [compliance_fields]. destruct (bool_decide (k ∈ IGNORE_KEYS)) eqn:Hk.
    { apply IH. }
    destruct (String.eqb_spec k "scheduledActionsForRule") as [->|Hne]; cbn [andb].
    + destruct (is_list v).
      * destruct (compliance_rules _ 0 (iter_values v) out) as [out1|] eqn:Hr; [|done].
        unfold mbind, result_bind. intros Hrest Hout. apply (IH _ _ Hrest).
        by apply (compliance_rules_kept _ _ _ _ Hr).
      * intros Hrest Hout. apply (IH _ _ Hrest), Forall_app. split; [done|].
        repeat constructor. apply (rule_key_kept "").
    + intros Hrest Hout. apply (IH _ _ Hrest), Forall_app. split; [done|].
      repeat constructor. eexists. split; [done|].
      by apply bool_decide_eq_false in Hk.
Qed.

(** X12: whenever the compliance extraction returns, every key of its
    output is a string and none is one of the metadata field names. *)
Theorem extract_compliance_policy_keys (json_doc : list (string * value))
    (out : list setting) :
  extract_compliance_policy json_doc = Ok out →
  Forall key_kept out.
Proof.
  intros H. by apply (compliance_fields_kept json_doc [] out H).
Qed.

Lemma extract_compliance_policy_keys_witness :
  Forall key_kept
    [(VStr "passwordRequired", VStr "True");
     (VStr "scheduledActionsForRule.PasswordRequired.actionCount", VStr "2");
     (VStr "scheduledActionsForRule.PasswordRequired.action_0",
      VStr "block (grace: 24h)");
     (VStr "scheduledActionsForRule.PasswordRequired.action_1",
      VStr "notification (grace: 0h)")].
Proof.
  apply (extract_compliance_policy_keys block_rule_doc). reflexivity.
Defined.

(** ** Further properties: ArtifactClassifier *)

(** X13: [classify_type] only ever returns one of seven classifications. *)
Theorem classify_type_range (name : string) :
  classify_type name
  ∈ ["Policy"; "CustomConfig"; "Compliance"; "Script"; "CustomAttribute";
     "Package"; "Unknown"].
Proof.
  unfold classify_type. destruct (match_ref_id name) as [prefix|].
  - unfold mapping. cbn [mapping_lookup].
    repeat match goal with
           | |- context [String.eqb ?a prefix] => destruct (String.eqb a prefix)
           end; cbn [default]; rewrite !elem_of_cons; tauto.
  - destruct (PyStr.endswith name ".mobileconfig"); rewrite !elem_of_cons; tauto.
Qed.

(** ** Further properties: ArtifactAggregator *)

Lemma keep_first_dup pre e post : ∀ seen,
  identity e ∈ (identity <$> pre) ∨ identity e ∈ seen →
  keep_first (pre ++ e :: post) seen = keep_first (pre ++ post) seen.
Proof.
  induction pre as [|x pre IH]; intros seen Hin.
  - destruct Hin as [Hin|Hin]; [by apply elem_of_nil in Hin|].
    simpl. by rewrite decide_True.
  - cbn [app keep_first]. destruct (decide (identity x ∈ seen)) as [Hx|Hx].
    + apply IH. destruct Hin as [Hin|Hin]; [|by right].
      rewrite fmap_cons in Hin. apply elem_of_cons in Hin as [->|Hin]; auto.
    + f_equal. apply IH. destruct Hin as [Hin|Hin].
      * rewrite fmap_cons in Hin. apply elem_of_cons in Hin as [->|Hin]; [|by left].
        right. apply elem_of_union_l. by apply elem_of_singleton.
      * right. by apply elem_of_union_r.
Qed.

(** X14: an entry whose identity triple was already produced has no effect
    on the merged list. *)
Theorem merge_entries_duplicate (pre post : list entry) (e : entry) :
  identity e ∈ (identity <$> pre) →
  merge_entries (pre ++ e :: post) = merge_entries (pre ++ post).
Proof.
  intros Hin. unfold merge_entries. rewrite !dedup_loop_keep_first.
  by rewrite keep_first_dup by (by left).
Qed.

Lemma merge_entries_duplicate_witness :
  merge_entries ([bundle_entry] ++ bundle_entry :: []) = merge_entries ([bundle_entry] ++ []).
Proof.
  apply (merge_entries_duplicate [bundle_entry] [] bundle_entry).
  apply list_elem_of_here.
Defined.

Lemma keep_first_distinct l : ∀ seen,
  NoDup (identity <$> l) →
  (∀ e, e ∈ l → identity e ∉ seen) →
  keep_first l seen = l.
Proof.
  induction l as [|x l IH]; intros seen Hnd Hseen; [done|].
  rewrite fmap_cons in Hnd. apply NoDup_cons in Hnd as [Hx Hnd].
  cbn [keep_first]. rewrite decide_False by (apply Hseen, list_elem_of_here).
  f_equal. apply IH; [done|]. intros e He.
  apply not_elem_of_union. split.
  - intros Heq%elem_of_singleton. apply Hx. rewrite <- Heq.
    by apply list_elem_of_fmap_2.
  - by apply Hseen, list_elem_of_further.
Qed.

Lemma le_ltb_false (a b : string) : String.le a b → String.ltb b a = false.
Proof.
  unfold String.le, String.leb, String.ltb.
  rewrite (String.compare_antisym b a).
  by destruct (String.compare a b).
Qed.

Lemma sort_by_ref_of_sorted l : Sorted ref_le l → sort_by_ref l = l.
Proof.
  induction 1 as [|x l Hl IH Hhd]; [done|].
  cbn [sort_by_ref foldr]. fold (sort_by_ref l). rewrite IH.
  destruct Hhd as [|y l' Hxy]; [done|].
  cbn [sort_insert]. by rewrite (le_ltb_false _ _ Hxy).
Qed.

(** X15: merging is idempotent: the merged list is deduplicated and sorted,
    so merging it again returns it unchanged. *)
Theorem merge_entries_idempotent (entries : list entry) :
  merge_entries (merge_entries entries) = merge_entries entries.
Proof.
  unfold merge_entries at 1. rewrite dedup_loop_keep_first, app_nil_l.
  rewrite keep_first_distinct.
  - apply sort_by_ref_of_sorted. unfold merge_entries. apply sort_by_ref_sorted.
  - apply merge_entries_NoDup.
  - intros e _. apply not_elem_of_empty.
Qed.



Section ManifestLoop.
Variable path_exists : string → bool.
Variable path_stem : string → string.

(** What is known of an entry the manifest loop appends. *)
Lemma manifest_entry_some entries mpath_stem root e :
  manifest_entry path_exists path_stem entries mpath_stem root = Ok (Some e) →
  tag root = "MacIntuneManifest"
  ∧ (relpath e ∉ (relpath <$> entries))
  ∧ count e = length (settings e)
  ∧ (settings e ≠ [] → type e ∈ manifest_only_kinds).
Proof.
  unfold manifest_entry.
  destruct (String.eqb_spec (tag root) "MacIntuneManifest") as [Htag|]; [|done].
  cbn [negb]. destruct (find root "Type") as [type_el|]; [|done].
  destruct (find root "SourceFile") as [src_el|]; [|done].
  destruct (text_strip type_el) as [artifact_type|]; [|done].
  destruct (text_strip src_el) as [rel_source|]; [|done].
  unfold mbind, result_bind.
  destruct (_ && _); [done|]. destruct (_ && _); [done|].
  destruct (existsb _ entries) eqn:Hex; [done|].
  intros [= <-]. cbn [relpath count settings type].
  split; [done|]. split; [|split; [done|]].
  - intros (x & Hx & Hin)%list_elem_of_fmap.
    assert (existsb (λ e, String.eqb (relpath e) rel_source) entries = true);
      [|congruence].
    apply existsb_exists. exists x. split; [by apply list_elem_of_In|].
    rewrite Hx. apply String.eqb_refl.
  - destruct (bool_decide (artifact_type ∈ manifest_only_kinds)) eqn:Hk; [|done].
    intros _. by apply bool_decide_eq_true in Hk.
Qed.

Lemma manifest_loop_added manifests : ∀ entries,
  ∃ added,
    manifest_loop path_exists path_stem manifests entries = entries ++ added
    ∧ NoDup (relpath <$> added)
    ∧ (∀ e, e ∈ added →
         (relpath e ∉ (relpath <$> entries))
         ∧ count e = length (settings e)
         ∧ (settings e ≠ [] → type e ∈ manifest_only_kinds)).
Proof.
  induction manifests as [|[mpath_stem parsed] rest IH]; intros entries.
  - exists []. rewrite app_nil_r. split; [done|]. split; [constructor|].
    by intros e ?%elem_of_nil.
  - cbn [manifest_loop]. destruct parsed as [root|]; [|apply IH].
    destruct (manifest_entry _ _ entries mpath_stem root) as [[e|]|] eqn:He;
      [|apply IH..].
    apply manifest_entry_some in He as (_ & Hfresh & Hcount & Hkind).
    destruct (IH (entries ++ [e])) as (added & -> & Hnd & Hadded).
    exists (e :: added). rewrite <- app_assoc. split; [done|]. split.
    + rewrite fmap_cons. constructor; [|done].
      intros (x & Hx & Hin)%list_elem_of_fmap.
      destruct (Hadded x Hin) as [Hnot _]. apply Hnot.
      rewrite fmap_app, elem_of_app. right. rewrite <- Hx. apply list_elem_of_here.
    + intros x [->|Hin]%elem_of_cons; [done|].
      destruct (Hadded x Hin) as (Hnot & ? & ?). split; [|done].
      intros Hin'. apply Hnot. rewrite fmap_app, elem_of_app. by left.
Qed.

End ManifestLoop.

(** X17: the manifest loop keeps the entries it is given, in place, and
    appends entries whose relative paths are pairwise distinct and differ
    from every relative path already present. *)
Theorem manifest_loop_fresh_relpaths (path_exists : string → bool)
    (path_stem : string → string) (manifests : list (string * option element))
    (entries : list entry) :
  ∃ added,
    manifest_loop path_exists path_stem manifests entries = entries ++ added
    ∧ NoDup (relpath <$> added)
    ∧ ∀ e, e ∈ added → relpath e ∉ (relpath <$> entries).
Proof.
  destruct (manifest_loop_added path_exists path_stem manifests entries)
    as (added & Heq & Hnd & Hadded).
  exists added. split; [done|]. split; [done|]. intros e He.
  by destruct (Hadded e He).
Qed.



(** X19: a manifest that is passed over contributes nothing and does not
    stop the loop. *)
Theorem manifest_loop_passes_over (path_exists : string → bool)
    (path_stem : string → string) (mpath_stem : string) (parsed : option element)
    (rest : list (string * option element)) (entries : list entry) :
  passed_over entries parsed →
  manifest_loop path_exists path_stem ((mpath_stem, parsed) :: rest) entries
  = manifest_loop path_exists path_stem rest entries.
Proof.
  intros Hp. cbn [manifest_loop]. destruct parsed as [root|]; [|done].
  assert (∀ e, manifest_entry path_exists path_stem entries mpath_stem root
               ≠ Ok (Some e)) as Hno.
  2:{ destruct (manifest_entry _ _ entries mpath_stem root) as [[e|]|]; try done.
      by destruct (Hno e). }
  intros e. unfold manifest_entry. simpl in Hp.
  destruct (String.eqb_spec (tag root) "MacIntuneManifest") as [Htag|]; [|done].
  cbn [negb]. destruct Hp as [Hp|Hp]; [done|].
  destruct (find root "Type") as [type_el|]; [|done].
  destruct (find root "SourceFile") as [src_el|]; [|done].
  destruct Hp as [Hp|[Hp|Hp]]; [done..|].
  unfold text_strip.
  destruct Hp as [(el & [= <-] & ->)|Hp]; [done|].
  destruct Hp as [(el & [= <-] & ->)|Hp]; [by destruct (text type_el)|].
  destruct Hp as (? & ? & t & s & [= <-] & -> & [= <-] & -> & Hp).
  unfold mbind, result_bind.
  destruct Hp as [[Ht Hs]|[[-> Hs]|Hin]].
  - by rewrite bool_decide_eq_true_2, Hs.
  - rewrite Hs. destruct (_ && _); [done|]. by rewrite String.eqb_refl.
  - destruct (_ && _); [done|]. destruct (_ && _); [done|].
    assert (existsb (λ e, String.eqb (relpath e) (PyStr.strip s)) entries = true)
      as ->; [|done].
    apply list_elem_of_fmap in Hin as (x & Hx & Hin).
    apply existsb_exists. exists x. split; [by apply list_elem_of_In|].
    rewrite Hx. apply String.eqb_refl.
Qed.

Lemma manifest_loop_passes_over_witness :
  manifest_loop (λ _, true) (λ _, "cfg-net-001")
    [("cfg-net-001",
      Some (Element "MacIntuneManifest" None
              [Element "Type" (Some " CustomConfig ") [];
               Element "SourceFile" (Some "mde/cfg-net-001.mobileconfig") []]))] []
  = manifest_loop (λ _, true) (λ _, "cfg-net-001") [] [].
Proof.
  apply manifest_loop_passes_over. simpl. do 5 right.
  eexists _, _, _, _. repeat (split; [reflexivity|]).
  right; left. split; reflexivity.
Defined.

(** ** Further properties: PayloadExtractor *)

Lemma payload_field_pair prefix k v out :
  payload_field prefix k v out = out ++ field_pair prefix (k, v).
Proof.
  unfold payload_field, field_pair. cbn [fst snd].
  destruct (bool_decide _); [by rewrite app_nil_r|].
  destruct v; simpl; by rewrite ?app_nil_r.
Qed.

Lemma payload_fields_pairs prefix items : ∀ out,
  payload_fields prefix items out = out ++ flat_map (field_pair prefix) items.
Proof.
  induction items as [|[k v] rest IH]; intros out; simpl.
  - by rewrite app_nil_r.
  - by rewrite IH, payload_field_pair, <- app_assoc.
Qed.

Lemma payload_steps_pairs payloads : ∀ out,
  foldl (λ out payload, payload_step payload out) out payloads
  = out ++ flat_map payload_pairs payloads.
Proof.
  induction payloads as [|payload rest IH]; intros out; simpl.
  - by rewrite app_nil_r.
  - rewrite IH. destruct payload; simpl; rewrite ?app_nil_r; try done.
    unfold payload_prefix. by rewrite payload_fields_pairs, <- app_assoc.
Qed.

(** X20: for a bundle whose [PayloadContent] is a list, the extraction
    returns exactly the pairs of the fields of its payload mappings that are
    not identity fields and hold a scalar or a nested structure: the key is
    the payload type, a dot and the field name, the value is the normalised
    scalar, or the summary [complex:list] or [complex:dict] of a nested
    structure, which is never expanded. *)
Theorem extract_mobileconfig_pairs (plist_doc : list (string * plist))
    (payloads : list plist) :
  plist_lookup plist_doc "PayloadContent" = Some (PList payloads) →
  ∃ out,
    extract_mobileconfig plist_doc = Ok out
    ∧ ∀ pair,
        pair ∈ out
        ↔ ∃ p k v val,
            PDict p ∈ payloads ∧ (k, v) ∈ p ∧ (k ∉ METADATA_KEYS)
            ∧ field_value v = Some val
            ∧ pair = (VStr (payload_prefix p +:+ "." +:+ k), val).
Proof.
  intros Hpc. exists (flat_map payload_pairs payloads). split.
  - unfold extract_mobileconfig. rewrite Hpc. cbn [default from_option id plist_iter].
    unfold mbind, result_bind. cbv beta iota. by rewrite payload_steps_pairs.
  - intros pair. rewrite list_elem_of_In, in_flat_map. split.
    + intros (payload & Hin & Hpair). destruct payload as [| | | | | | |p]; try done.
      cbn [payload_pairs] in Hpair. apply in_flat_map in Hpair as ([k v] & Hkv & Hp).
      unfold field_pair in Hp. cbn [fst snd] in Hp.
      destruct (bool_decide (k ∈ METADATA_KEYS)) eqn:Hk; [done|].
      destruct (field_value v) as [val|] eqn:Hv; [|done].
      destruct Hp as [<-|[]]. exists p, k, v, val.
      split; [by apply list_elem_of_In|]. split; [by apply list_elem_of_In|].
      split; [by apply bool_decide_eq_false in Hk|done].
    + intros (p & k & v & val & Hp & Hkv & Hk & Hv & ->).
      exists (PDict p). split; [by apply list_elem_of_In|].
      cbn [payload_pairs]. apply in_flat_map. exists (k, v).
      split; [by apply list_elem_of_In|].
      unfold field_pair. cbn [fst snd].
      rewrite bool_decide_eq_false_2 by done. rewrite Hv. by left.
Qed.

Lemma extract_mobileconfig_pairs_witness :
  ∃ out,
    extract_mobileconfig wifi_bundle = Ok out
    ∧ ∀ pair,
        pair ∈ out
        ↔ ∃ p k v val,
            PDict p ∈ [PDict [("PayloadType", PStr "com.apple.wifi.managed");
                              ("PayloadUUID", PStr "0000");
                              ("AutoJoin", PBool true);
                              ("SSID_STR", PStr "corp");
                              ("EAPClientConfiguration",
                               PDict [("AcceptEAPTypes", PList [PInt 25])]);
                              ("PayloadCertificate", PData "b'\x00'")];
                       PStr "stray"]
            ∧ (k, v) ∈ p ∧ (k ∉ METADATA_KEYS)
            ∧ field_value v = Some val
            ∧ pair = (VStr (payload_prefix p +:+ "." +:+ k), val).
Proof.
  apply (extract_mobileconfig_pairs wifi_bundle). reflexivity.
Defined.

Example extract_mobileconfig_ex :
  extract_mobileconfig wifi_bundle
  = Ok [(VStr "com.apple.wifi.managed.AutoJoin", VStr "True");
        (VStr "com.apple.wifi.managed.SSID_STR", VStr "corp");
        (VStr "com.apple.wifi.managed.EAPClientConfiguration", VStr "complex:dict")].
Proof. reflexivity. Qed.

Lemma payload_steps_non_mapping payloads :
  Forall (λ p, ∀ d, p ≠ PDict d) payloads →
  foldl (λ out payload, payload_step payload out) [] payloads = [].
Proof.
  intros H. rewrite payload_steps_pairs. simpl.
  induction H as [|p l Hp _ IH]; [done|]. simpl. rewrite IH.
  destruct p; try done. by destruct (Hp d).
Qed.

(** X21: a bundle without [PayloadContent], or whose [PayloadContent] is a
    string, data or a mapping, yields no pair; one whose [PayloadContent] is
    a number, a truth value or a date makes the extraction raise
    [TypeError]. *)
Theorem extract_mobileconfig_no_list (plist_doc : list (string * plist)) :
  match plist_lookup plist_doc "PayloadContent" with
  | None | Some (PStr _) | Some (PData _) | Some (PDict _) =>
      extract_mobileconfig plist_doc = Ok []
  | Some (PInt _) | Some (PReal _) | Some (PBool _) | Some (PDate _ _) =>
      extract_mobileconfig plist_doc = Raise TypeError
  | Some (PList _) => True
  end.
Proof.
  unfold extract_mobileconfig.
  destruct (plist_lookup plist_doc "PayloadContent") as [[s| | | | | | |d]|];
    try done; cbn [default from_option id plist_iter]; unfold mbind, result_bind;
    cbv beta iota; f_equal.
  - apply payload_steps_non_mapping, Forall_forall.
    intros p (c & -> & _)%list_elem_of_fmap. done.
  - apply payload_steps_non_mapping, Forall_forall.
    intros p (kv & -> & _)%list_elem_of_fmap. done.
Qed.

(** ** Further properties: table rendering *)

Lemma count_char_app c (a b : string) :
  count_char c (a +:+ b) = count_char c a + count_char c b.
Proof.
  induction a as [|x a IH]; [done|]. rewrite str_app_cons. simpl. rewrite IH. lia.
Qed.

Lemma table_row_breaks row : count_char Re.newline (table_row row) = 1 + cell_breaks row.
Proof.
  unfold table_row, cell_breaks, nl. rewrite !count_char_app.
  change (count_char Re.newline "| `") with 0.
  change (count_char Re.newline "` | `") with 0.
  change (count_char Re.newline "` |") with 0.
  change (count_char Re.newline (String Re.newline "")) with 1. lia.
Qed.

Lemma table_body_breaks rows :
  count_char Re.newline (PyStr.join "" (map table_row rows))
  = length rows + sum_list_with cell_breaks rows.
Proof.
  induction rows as [|row rows IH]; [done|].
  cbn [map length sum_list_with]. unfold PyStr.join in *.
  destruct rows as [|row' rows].
  - cbn [map String.concat length sum_list_with]. rewrite table_row_breaks. lia.
  - change (String.concat "" (table_row row :: map table_row (row' :: rows)))
      with (table_row row +:+ "" +:+ String.concat "" (map table_row (row' :: rows))).
    rewrite !count_char_app, IH, table_row_breaks. simpl. lia.
Qed.

(** X22: the table of an empty list is the single line of the placeholder
    text; the table of [n > 0] rows has two header lines and one line per
    row, plus the line feeds that the cells themselves hold. *)
Theorem format_table_lines (rows : list setting) :
  count_char Re.newline (format_table rows)
  = match rows with
    | [] => 1
    | _ => 2 + length rows + sum_list_with cell_breaks rows
    end.
Proof.
  destruct rows as [|row rows]; [reflexivity|].
  unfold format_table. cbv zeta. unfold nl.
  rewrite !count_char_app, table_body_breaks.
  change (count_char Re.newline "| Key | Value |") with 0.
  change (count_char Re.newline "|-----|-------|") with 0.
  change (count_char Re.newline (String Re.newline "")) with 1. lia.
Qed.

Example format_table_ex :
  format_table [(VStr "a.b", VStr "1")]
  = "| Key | Value |" +:+ nl +:+ "|-----|-------|" +:+ nl +:+ "| `a.b` | `1` |" +:+ nl.
Proof. reflexivity. Qed.

(** ** Further properties: anchors *)

Lemma lower_char_idem c : PyStr.lower_char (PyStr.lower_char c) = PyStr.lower_char c.
Proof. by destruct c as [[] [] [] [] [] [] [] []]. Qed.

Lemma lower_idem s : PyStr.lower (PyStr.lower s) = PyStr.lower s.
Proof. induction s as [|c s IH]; [done|]. simpl. by rewrite lower_char_idem, IH. Qed.

Lemma lower_app (a b : string) : PyStr.lower (a +:+ b) = PyStr.lower a +:+ PyStr.lower b.
Proof. induction a as [|c a IH]; [done|]. rewrite str_app_cons. simpl. by rewrite IH. Qed.

Lemma replace_char_app x y (a b : string) :
  replace_char x y (a +:+ b) = replace_char x y a +:+ replace_char x y b.
Proof. induction a as [|c a IH]; [done|]. rewrite str_app_cons. simpl. by rewrite IH. Qed.

Lemma lower_replace_lower_char c :
  PyStr.lower_char (if Ascii.eqb (PyStr.lower_char c) " " then "-"%char
                    else PyStr.lower_char c)
  = PyStr.lower_char (if Ascii.eqb c " " then "-"%char else c).
Proof. by destruct c as [[] [] [] [] [] [] [] []]. Qed.

Lemma lower_replace_lower s :
  PyStr.lower (replace_char " " "-" (PyStr.lower s))
  = PyStr.lower (replace_char " " "-" s).
Proof.
  induction s as [|c s IH]; [done|]. simpl. by rewrite lower_replace_lower_char, IH.
Qed.

Lemma lower_replace_no_space_char c :
  Ascii.eqb (PyStr.lower_char (if Ascii.eqb c " " then "-"%char else c)) " " = false.
Proof. by destruct c as [[] [] [] [] [] [] [] []]. Qed.

Lemma lower_replace_no_space s :
  PyRepr.contains_char " " (PyStr.lower (replace_char " " "-" s)) = false.
Proof.
  induction s as [|c s IH]; [done|]. simpl.
  by rewrite lower_replace_no_space_char, IH.
Qed.

(** X23: an anchor holds no space, is in lower case, and does not depend on
    the case of the letters of the reference and of the type. *)
Theorem anchor_for_normal (ref type_ : string) :
  PyRepr.contains_char " " (anchor_for ref type_) = false
  ∧ PyStr.lower (anchor_for ref type_) = anchor_for ref type_
  ∧ anchor_for (PyStr.lower ref) (PyStr.lower type_) = anchor_for ref type_.
Proof.
  unfold anchor_for. cbv zeta. split; [apply lower_replace_no_space|].
  split; [apply lower_idem|].
  rewrite lower_idem.
  rewrite <- (lower_replace_lower (ref +:+ "-" +:+ PyStr.lower type_)).
  by rewrite !lower_app, !lower_idem.
Qed.

Example anchor_for_ex :
  anchor_for "pol-sec-001" "Custom Attribute" = "pol-sec-001-custom-attribute".
Proof. reflexivity. Qed.

(** ** Further properties: the extraction chain and the JSON loop *)

Lemma json_entry_none f : has_doc f = false → json_entry f = Ok None.
Proof. unfold has_doc, json_entry. cbv zeta. by intros ->. Qed.

Lemma json_entry_some f e :
  json_entry f = Ok (Some e) →
  has_doc f = true ∧ ref e = file_stem f ∧ relpath e = file_rel f ∧ count_ok e.
Proof.
  unfold has_doc, json_entry, count_ok. cbv zeta.
  destruct (truthy (default VNone (file_doc f))); [|done]. cbn [negb].
  destruct (as_dict _) as [d|]; [|done]. unfold mbind, result_bind. cbv beta iota.
  destruct (json_settings d) as [s|]; [|done].
  by intros [= <-].
Qed.

Lemma json_entry_not_mapping f :
  has_doc f = true → is_mapping (default VNone (file_doc f)) = false →
  json_entry f = Raise AttributeError.
Proof.
  unfold has_doc, json_entry. cbv zeta. intros -> Hm. cbn [negb].
  by destruct (default VNone (file_doc f)).
Qed.

Lemma json_loop_added files : ∀ entries out,
  json_loop files entries = Ok out →
  ∃ added, out = entries ++ added
    ∧ ref <$> added = file_stem <$> List.filter has_doc files
    ∧ relpath <$> added = file_rel <$> List.filter has_doc files
    ∧ Forall count_ok added.
Proof.
  induction files as [|f rest IH]; intros entries out.
  - intros [= <-]. exists []. by rewrite app_nil_r.
  - cbn [json_loop List.filter]. unfold mbind, result_bind.
    destruct (json_entry f) as [[e|]|] eqn:Hf; [| |done].
    + apply json_entry_some in Hf as (-> & Hr & Hp & Hc).
      intros (added & -> & Hrefs & Hrels & Hcs)%IH.
      exists (e :: added). rewrite <- app_assoc. split; [done|].
      cbn [fmap list_fmap]. rewrite Hr, Hp.
      split; [by f_equal|]. split; [by f_equal|]. by constructor.
    + destruct (has_doc f) eqn:Hd; [|apply IH].
      unfold has_doc, json_entry in *. cbv zeta in Hf. rewrite Hd in Hf.
      cbn [negb] in Hf. revert Hf. unfold mbind, result_bind.
      destruct (as_dict _); [|done]. by destruct (json_settings _).
Qed.

Lemma json_loop_raise files : ∀ f entries,
  f ∈ files → (∃ e, json_entry f = Raise e) → ∃ e, json_loop files entries = Raise e.
Proof.
  induction files as [|x rest IH]; intros f entries; [by intros ?%elem_of_nil|].
  intros [->|Hin]%elem_of_cons Hraise; cbn [json_loop]; unfold mbind, result_bind.
  - destruct Hraise as [e ->]. by exists e.
  - destruct (json_entry x) as [[e|]|e]; [by eapply IH..|by exists e].
Qed.

(** X24: settings found by the catalogue extraction are final: neither
    fallback runs, whatever the type marker of the document is. *)
Theorem json_settings_catalog_first (doc : list (string * value)) (s : setting)
    (rest : list setting) :
  extract_settings_catalog doc = Ok (s :: rest) →
  json_settings doc = Ok (s :: rest).
Proof. unfold json_settings. cbv zeta. by intros ->. Qed.

Lemma json_settings_catalog_first_witness :
  json_settings firewall_policy
  = Ok [(VStr "com.apple.alf_enablefirewall", VStr "True")].
Proof. apply json_settings_catalog_first. reflexivity. Defined.

(** X25: when the catalogue extraction finds nothing and the type marker
    of the document is [None], a number or a truth value, the chain raises
    [TypeError] at the membership test. *)
Theorem json_settings_marker_not_text (doc : list (string * value)) :
  extract_settings_catalog doc = Ok [] →
  is_none (dict_get_default doc "@odata.type" (VStr ""))
  || is_number (dict_get_default doc "@odata.type" (VStr "")) = true →
  json_settings doc = Raise TypeError.
Proof.
  unfold json_settings. cbv zeta. intros -> Hm.
  unfold mbind, result_bind, compliance_fallback. cbn [is_nil].
  by destruct (dict_get_default doc "@odata.type" (VStr "")).
Qed.

Lemma json_settings_marker_not_text_witness :
  json_settings numbered_policy = Raise TypeError.
Proof. apply json_settings_marker_not_text; reflexivity. Defined.

(** X26: a document with neither a [settings] key nor a type marker gives
    an empty list of settings, without an exception. *)
Theorem json_settings_no_known_keys (doc : list (string * value)) :
  dict_lookup doc "settings" = None →
  dict_lookup doc "@odata.type" = None →
  json_settings doc = Ok [].
Proof.
  unfold json_settings, extract_settings_catalog, dict_get_default.
  intros -> ->. reflexivity.
Qed.

Lemma json_settings_no_known_keys_witness :
  json_settings [("displayName", VStr "Plain")] = Ok [].
Proof. apply json_settings_no_known_keys; reflexivity. Defined.

(** X27: files that are not read, or hold an empty document, leave no
    trace: the loop over all files is the loop over the others. *)
Theorem json_loop_skips_empty (files : list json_file) (entries : list entry) :
  json_loop (List.filter has_doc files) entries = json_loop files entries.
Proof.
  revert entries. induction files as [|f rest IH]; intros entries; [done|].
  cbn [List.filter json_loop]. destruct (has_doc f) eqn:Hd.
  - cbn [json_loop]. unfold mbind, result_bind.
    by destruct (json_entry f) as [[e|]|].
  - rewrite (json_entry_none f Hd). unfold mbind, result_bind. apply IH.
Qed.

(** X28: when the loop ends, it has appended one entry per file with a
    non-empty document, in the order of the files, with the stem as
    reference and the relative path as path. *)
Theorem json_loop_entries (files : list json_file) (entries out : list entry) :
  json_loop files entries = Ok out →
  ∃ added, out = entries ++ added
    ∧ ref <$> added = file_stem <$> List.filter has_doc files
    ∧ relpath <$> added = file_rel <$> List.filter has_doc files.
Proof.
  intros (added & ? & ? & ? & _)%json_loop_added. by exists added.
Qed.

Lemma json_loop_entries_witness :
  ∃ added,
    [{| ref := "pol-sec-001-firewall"; type := "Policy";
        relpath := "configurations/pol-sec-001-firewall.json";
        name := None; description := None;
        settings := [(VStr "com.apple.alf_enablefirewall", VStr "True")];
        count := 1 |}] = [] ++ added
    ∧ ref <$> added = file_stem <$> List.filter has_doc [empty_file; catalog_file]
    ∧ relpath <$> added = file_rel <$> List.filter has_doc [empty_file; catalog_file].
Proof. apply json_loop_entries. reflexivity. Defined.

(** X29: one file whose document is not empty and not a mapping (an array,
    a number, a string) makes the whole loop raise. *)
Theorem json_loop_aborts (files : list json_file) (f : json_file)
    (entries : list entry) :
  f ∈ files →
  has_doc f = true →
  is_mapping (default VNone (file_doc f)) = false →
  ∃ e, json_loop files entries = Raise e.
Proof.
  intros Hin Hd Hm. apply (json_loop_raise files f); [done|].
  exists AttributeError. by apply json_entry_not_mapping.
Qed.

Lemma json_loop_aborts_witness :
  ∃ e, json_loop [catalog_file; array_file; empty_file] [] = Raise e.
Proof.
  apply (json_loop_aborts _ array_file); [|reflexivity..].
  apply elem_of_cons. right. apply elem_of_cons. by left.
Defined.

(** X30: in the list that [build_entries] returns, the counter of every
    entry is the length of its list of settings, as soon as this holds for
    the entries of the profile-bundle loop. *)
Theorem build_entries_count (path_exists : string → bool)
    (path_stem : string → string) (files : list json_file)
    (json_entries : list entry) (xml_manifests : list (string * option element))
    (mc_entries : list entry) :
  json_loop files [] = Ok json_entries →
  Forall count_ok mc_entries →
  Forall count_ok (build_entries path_exists path_stem json_entries xml_manifests
                     mc_entries).
Proof.
  intros (added & -> & _ & _ & Hjs)%json_loop_added Hmc.
  rewrite app_nil_l. unfold build_entries. cbv zeta.
  destruct (manifest_loop_added path_exists path_stem xml_manifests added)
    as (more & -> & _ & Hmore).
  apply Forall_forall. intros e (pre & post & Heq & _)%merge_entries_elem.
  assert (e ∈ (added ++ more) ++ mc_entries) as He.
  { rewrite Heq. apply elem_of_app. right. apply elem_of_cons. by left. }
  apply elem_of_app in He as [[He|He]%elem_of_app|He].
  - by eapply Forall_forall in Hjs.
  - by apply Hmore.
  - by eapply Forall_forall in Hmc.
Qed.

Lemma build_entries_count_witness :
  Forall count_ok
    (build_entries (λ _, false) id
       [{| ref := "pol-sec-001-firewall"; type := "Policy";
           relpath := "configurations/pol-sec-001-firewall.json";
           name := None; description := None;
           settings := [(VStr "com.apple.alf_enablefirewall", VStr "True")];
           count := 1 |}]
       [("pkg-001", Some stray_manifest)] []).
Proof.
  apply (build_entries_count _ _ [empty_file; catalog_file]);
    [reflexivity|constructor].
Defined.
